(** * CSV Automation Bot: the clean / organize / emit pipeline of
    [.kiro/workflow.ts], embedded and verified.

    Strings are Rocq strings (the pipeline only compares, tests for emptiness
    and concatenates them).  A JavaScript [Map] is an association list in
    insertion order, because the code relies on that order.  The bot's
    mutable field [processedCount] is threaded through the steps of a run,
    and is kept when a step throws.  Whether a CSV document can be written
    depends on its path, which is computed from the data, so the host
    decides it; creating the directories, reading, moving files and writing
    the report have paths the data has no part in and are taken to
    succeed. *)

From Stdlib Require Import List String Ascii Bool Arith Lia Permutation.
From Stdlib Require Import DecimalString.
From Stdlib Require DecimalNat.
From Stdlib Require Floats.PrimFloat.
Import ListNotations.
Local Open Scope string_scope.
Local Open Scope list_scope.

Set Implicit Arguments.
Set Warnings "-register-all".

(** ** Data model *)

(** [interface DataRow]: the three keyed fields are declared [string]; the
    parser can put other JSON values there (through [any]), hence the
    parameter [V].  [DataRow] is the declared type. *)
Record Row (V : Type) : Type := mkRow {
  id : V;
  name : V;
  category : V;
  timestamp : string;
  processed : bool
}.

Abbreviation DataRow := (Row string).

(** ** JavaScript [Map] with string keys

    Entries are kept in the order in which their keys were first inserted;
    [set] on a key already present replaces the value where it stands. *)
Module JSMap.
Section Ops.
Variable V : Type.

Definition t : Type := list (string * V).

Definition empty : t := [].

Fixpoint has (k : string) (m : t) : bool :=
  match m with
  | [] => false
  | (k', _) :: m' => if String.eqb k' k then true else has k m'
  end.

Fixpoint get (k : string) (m : t) : option V :=
  match m with
  | [] => None
  | (k', v) :: m' => if String.eqb k' k then Some v else get k m'
  end.

Fixpoint set (k : string) (v : V) (m : t) : t :=
  match m with
  | [] => [(k, v)]
  | (k', v') :: m' =>
      if String.eqb k' k then (k', v) :: m' else (k', v') :: set k v m'
  end.

(** [new Map(iterable)]: the entries are [set] one after the other. *)
Definition put (m : t) (e : string * V) : t := set (fst e) (snd e) m.

Definition of_entries (es : list (string * V)) : t :=
  fold_left put es empty.

Definition keys (m : t) : list string := map fst m.
Definition values (m : t) : list V := map snd m.
End Ops.
Arguments empty {V}.
End JSMap.

(** ** [cleanData] *)

(** [ToBoolean] on a string. *)
Definition truthy (s : string) : bool := negb (String.eqb s "").

(** [a && b] on strings: [a] when [a] is falsy, else [b]. *)
Definition js_and (a b : string) : string := if truthy a then b else a.

(** [data.map(d => [d.id, d])] *)
Definition keyed (data : list DataRow) : list (string * DataRow) :=
  map (fun d => (id d, d)) data.

(** [Array.from(new Map(data.map(d => [d.id, d])).values())] *)
Definition unique (data : list DataRow) : list DataRow :=
  JSMap.values (JSMap.of_entries (keyed data)).

(** [row => row.id && row.name && row.category] as a filter predicate. *)
Definition required_fields (row : DataRow) : bool :=
  truthy (js_and (js_and (id row) (name row)) (category row)).

Definition cleanData (data : list DataRow) : list DataRow :=
  let unique := unique data in
  let validated := filter required_fields unique in
  validated.

(** ** [organizeData] *)

(** One turn of the [for (const row of data)] loop.  [push] mutates the array
    that the map holds, so the bucket is updated in place. *)
Definition organize_step (organized : JSMap.t (list DataRow)) (row : DataRow)
  : JSMap.t (list DataRow) :=
  let organized :=
    if negb (JSMap.has (category row) organized)
    then JSMap.set (category row) [] organized
    else organized in
  match JSMap.get (category row) organized with
  | Some rows => JSMap.set (category row) (rows ++ [row]) organized
  | None => organized
  end.

Definition organizeData (data : list DataRow) : JSMap.t (list DataRow) :=
  fold_left organize_step data JSMap.empty.

(** ** [convertToCSV] *)

Definition dquote : string := String "034"%char EmptyString.
Definition newline : string := String "010"%char EmptyString.

(** A template literal: its pieces, converted to strings, are appended. *)
Definition template (pieces : list string) : string :=
  fold_right String.append EmptyString pieces.

(** [String(b)] for a boolean. *)
Definition string_of_boolean (b : bool) : string :=
  if b then "true" else "false".

(** [Array.prototype.join]. *)
Definition join (sep : string) (xs : list string) : string :=
  match xs with
  | [] => EmptyString
  | x :: rest =>
      fold_left (fun acc y => String.append (String.append acc sep) y) rest x
  end.

Definition headers : string := "ID,Name,Category,Timestamp,Processed".

Definition csv_row (d : DataRow) : string :=
  template [dquote; id d; dquote; ","; dquote; name d; dquote; ",";
            dquote; category d; dquote; ","; dquote; timestamp d; dquote; ",";
            string_of_boolean (processed d)].

Definition convertToCSV (data : list DataRow) : string :=
  let rows := map csv_row data in
  join newline (headers :: rows).

(** ** The bot's state and the report *)

(** [processedCount] is the private field of [CSVAutomationBot]; [written]
    logs, oldest first, each CSV document that [fs.writeFileSync] has
    written for [generateCSVOutput], under the path it was written to. *)
Record State : Type := mkState {
  processedCount : nat;
  written : list (string * string)
}.

Definition outputDir : string := "./data/output".

Record Report : Type := mkReport {
  totalRecordsProcessed : nat;
  outputDirectory : string;
  status : string
}.

(** [new CSVAutomationBot()]: the field initialiser of [processedCount]. *)
Definition automationBot : State := {| processedCount := 0; written := [] |}.

(** ** [parseData] *)

(** The values [JSON.parse] can return; a number is an IEEE 754 double. *)
Inductive JSValue : Type :=
| JNull
| JBool (b : bool)
| JNumber (x : PrimFloat.float)
| JString (s : string)
| JArray (items : list JSValue)
| JObject (props : list (string * JSValue)).

Inductive JSError : Type := SyntaxError | TypeError.

Inductive Result (A : Type) : Type :=
| Ok (a : A)
| Throw (e : JSError).
Arguments Throw {A} e.

Definition bindR {A B : Type} (r : Result A) (k : A -> Result B) : Result B :=
  match r with
  | Ok a => k a
  | Throw e => Throw e
  end.

(** [String.prototype.endsWith]: [s] is [suffix], or its tail ends with it. *)
Fixpoint endsWith (s suffix : string) : bool :=
  if String.eqb s suffix then true
  else match s with
       | EmptyString => false
       | String _ s' => endsWith s' suffix
       end.

(** [ToBoolean] on a parsed value. *)
Definition to_boolean (v : JSValue) : bool :=
  match v with
  | JNull => false
  | JBool b => b
  | JNumber x => negb (PrimFloat.eqb x PrimFloat.zero || PrimFloat.is_nan x)
  | JString s => truthy s
  | JArray _ | JObject _ => true
  end.

Fixpoint own_property (key : string) (props : list (string * JSValue))
  : option JSValue :=
  match props with
  | [] => None
  | (k, v) :: rest => if String.eqb k key then Some v else own_property key rest
  end.

(** [item.key] for [key] one of "id", "name", "category": [None] is
    [undefined].  Reading a property of [null] throws a [TypeError]; booleans,
    numbers, strings and arrays have no property of these names. *)
Definition read_field (item : JSValue) (key : string)
  : Result (option JSValue) :=
  match item with
  | JNull => Throw TypeError
  | JObject props => Ok (own_property key props)
  | _ => Ok None
  end.

(** [a || b] *)
Definition js_or (a : option JSValue) (b : JSValue) : JSValue :=
  match a with
  | Some v => if to_boolean v then v else b
  | None => b
  end.

Definition string_of_index (idx : nat) : string :=
  NilEmpty.string_of_uint (Nat.to_uint idx).

(** The callback of [items.map]; [now idx] is what
    [new Date().toISOString()] returns when element [idx] is mapped. *)
Definition parse_item (now : nat -> string) (item : JSValue) (idx : nat)
  : Result (Row JSValue) :=
  bindR (read_field item "id") (fun i =>
  bindR (read_field item "name") (fun n =>
  bindR (read_field item "category") (fun c =>
  Ok {| id := js_or i (JString (template ["row_"; string_of_index idx]));
        name := js_or n (JString "Unknown");
        category := js_or c (JString "Uncategorized");
        timestamp := now idx;
        processed := false |}))).

(** [Array.prototype.map] with a callback that may throw. *)
Fixpoint map_from {B : Type} (f : JSValue -> nat -> Result B)
  (items : list JSValue) (idx : nat) : Result (list B) :=
  match items with
  | [] => Ok []
  | item :: rest =>
      bindR (f item idx) (fun b =>
      bindR (map_from f rest (S idx)) (fun bs => Ok (b :: bs)))
  end.

(** [JSON_parse content] is [None] when [JSON.parse] throws its
    [SyntaxError]. *)
Definition parseData (JSON_parse : string -> option JSValue)
  (now : nat -> string) (content filename : string)
  : Result (list (Row JSValue)) :=
  let rows := [] in
  if endsWith filename ".json" then
    match JSON_parse content with
    | None => Throw SyntaxError
    | Some parsed =>
        let items := match parsed with
                     | JArray elements => elements
                     | _ => [parsed]
                     end in
        map_from (parse_item now) items 0
    end
  else Ok rows.

(** ** [readInputFiles] *)

(** What [fs.readdirSync] and [fs.readFileSync] show of a directory: its
    regular files, name and content, in listing order.  File names are
    unique in a directory; subdirectories are not listed here. *)
Definition Files : Type := list (string * string).

(** [file.endsWith('.csv') || file.endsWith('.json')] *)
Definition supported (file : string) : bool :=
  endsWith file ".csv" || endsWith file ".json".

(** The [for (const file of files)] loop; [data] is the array pushed to and
    [now file] the clock while [file] is parsed.  A throwing [parseData]
    ends the loop. *)
Fixpoint read_loop (JSON_parse : string -> option JSValue)
  (now : string -> nat -> string) (files : Files)
  (data : list (Row JSValue)) : Result (list (Row JSValue)) :=
  match files with
  | [] => Ok data
  | (file, content) :: rest =>
      if supported file then
        bindR (parseData JSON_parse (now file) content file)
              (fun parsedData =>
                 read_loop JSON_parse now rest (data ++ parsedData))
      else read_loop JSON_parse now rest data
  end.

Definition readInputFiles (JSON_parse : string -> option JSValue)
  (now : string -> nat -> string) (files : Files)
  : Result (list (Row JSValue)) :=
  read_loop JSON_parse now files [].

(** ** [archiveProcessedFiles] *)

(** The input directory: its files, and the files of its [archive]
    subdirectory when that exists. *)
Record InputDir : Type := mkInputDir {
  listing : Files;
  archiveDir : option (JSMap.t string)
}.

(** The files of the archive, none when the directory is missing. *)
Definition archive_files (d : InputDir) : JSMap.t string :=
  match archiveDir d with
  | Some files => files
  | None => []
  end.

(** [if (!fs.existsSync(archiveDir)) fs.mkdirSync(archiveDir, ...)] *)
Definition ensure_archive (d : InputDir) : InputDir :=
  match archiveDir d with
  | Some _ => d
  | None => {| listing := listing d; archiveDir := Some [] |}
  end.

Definition remove_file (file : string) (files : Files) : Files :=
  filter (fun e => negb (String.eqb (fst e) file)) files.

(** [fs.renameSync(source, dest)] from the input directory into its archive:
    the file leaves the listing and replaces any archived file of its name. *)
Definition renameSync (file : string) (d : InputDir) : InputDir :=
  match JSMap.get file (listing d) with
  | Some content =>
      {| listing := remove_file file (listing d);
         archiveDir := Some (JSMap.set file content (archive_files d)) |}
  | None => d
  end.

Definition archive_step (d : InputDir) (file : string) : InputDir :=
  if supported file then renameSync file d else d.

Definition archiveProcessedFilesOn (d : InputDir) : InputDir :=
  let d := ensure_archive d in
  let files := JSMap.keys (listing d) in
  fold_left archive_step files d.

(** ** The host of a run *)

(** What a failed step throws: an error of the language, or the system
    error of a write. *)
Inductive Failure : Type :=
| Thrown (e : JSError)
| WriteFailed (path : string).

Inductive Outcome (A : Type) : Type :=
| Done (a : A)
| Failed (f : Failure).
Arguments Failed {A} f.

Definition bindO {A B : Type} (o : Outcome A) (k : A -> Outcome B)
  : Outcome B :=
  match o with
  | Done a => k a
  | Failed f => Failed f
  end.

(** What the run takes from its host: [String.prototype.toLowerCase]; the
    conversion to text that a template literal applies to a value that is
    not a string (it throws for an object that cannot be converted);
    [path.join]; the clock, as [Date.now()] reads it in turn [k] of the loop
    of [generateCSVOutput]; and whether [fs.writeFileSync] can create the
    file at a path (it throws when it cannot, as for a path that leads
    through a directory that does not exist). *)
Record Host : Type := mkHost {
  toLowerCase : string -> string;
  ToString : JSValue -> Outcome string;
  path_join : string -> string -> string;
  Date_now : nat -> nat;
  write_succeeds : string -> bool
}.

(** ** Records as they are at run time

    [readInputFiles] returns records whose id, name and category are the
    parsed values [parseData] put there; the steps after it work on those. *)

(** A key of a [Map]: a primitive value, or the reference of an array or
    object.  Every array or object of a parsed document is a fresh
    reference, known by the position of the record that holds it. *)
Inductive Key : Type :=
| KValue (v : JSValue)
| KRef (position : nat).

Definition key_of (position : nat) (v : JSValue) : Key :=
  match v with
  | JArray _ | JObject _ => KRef position
  | _ => KValue v
  end.

(** [SameValueZero], the equality of [Map] keys: zeros are equal whatever
    their sign, NaN is equal to itself. *)
Definition same_number (x y : PrimFloat.float) : bool :=
  PrimFloat.eqb x y || (PrimFloat.is_nan x && PrimFloat.is_nan y).

Definition same_key (k1 k2 : Key) : bool :=
  match k1, k2 with
  | KValue JNull, KValue JNull => true
  | KValue (JBool a), KValue (JBool b) => Bool.eqb a b
  | KValue (JNumber x), KValue (JNumber y) => same_number x y
  | KValue (JString s), KValue (JString t) => String.eqb s t
  | KRef i, KRef j => Nat.eqb i j
  | _, _ => false
  end.

(** A [Map] with such keys, in insertion order. *)
Module KeyMap.
Section Ops.
Variable V : Type.

Definition t : Type := list (Key * V).

Fixpoint has (k : Key) (m : t) : bool :=
  match m with
  | [] => false
  | (k', _) :: m' => if same_key k' k then true else has k m'
  end.

Fixpoint get (k : Key) (m : t) : option V :=
  match m with
  | [] => None
  | (k', v) :: m' => if same_key k' k then Some v else get k m'
  end.

Fixpoint set (k : Key) (v : V) (m : t) : t :=
  match m with
  | [] => [(k, v)]
  | (k', v') :: m' =>
      if same_key k' k then (k', v) :: m' else (k', v') :: set k v m'
  end.

Definition put (m : t) (e : Key * V) : t := set (fst e) (snd e) m.

Definition of_entries (es : list (Key * V)) : t := fold_left put es [].

Definition values (m : t) : list V := map snd m.
End Ops.
End KeyMap.

(** [data.map(d => [d.id, d])], the first record being at [position]. *)
Fixpoint keyedJS (data : list (Row JSValue)) (position : nat)
  : list (Key * Row JSValue) :=
  match data with
  | [] => []
  | d :: rest => (key_of position (id d), d) :: keyedJS rest (S position)
  end.

Definition uniqueJS (data : list (Row JSValue)) : list (Row JSValue) :=
  KeyMap.values (KeyMap.of_entries (keyedJS data 0)).

(** [a && b] on values. *)
Definition and_value (a b : JSValue) : JSValue :=
  if to_boolean a then b else a.

Definition required_fieldsJS (row : Row JSValue) : bool :=
  to_boolean (and_value (and_value (id row) (name row)) (category row)).

(** [cleanData] on the records of a run. *)
Definition cleanDataJS (data : list (Row JSValue)) : list (Row JSValue) :=
  let unique := uniqueJS data in
  let validated := filter required_fieldsJS unique in
  validated.

(** One turn of the loop of [organizeData], for the record at [position]. *)
Definition organize_stepJS (organized : KeyMap.t (list (Row JSValue)))
  (position : nat) (row : Row JSValue) : KeyMap.t (list (Row JSValue)) :=
  let category := key_of position (category row) in
  let organized :=
    if negb (KeyMap.has category organized)
    then KeyMap.set category [] organized
    else organized in
  match KeyMap.get category organized with
  | Some rows => KeyMap.set category (rows ++ [row]) organized
  | None => organized
  end.

Fixpoint organize_loopJS (data : list (Row JSValue)) (position : nat)
  (organized : KeyMap.t (list (Row JSValue)))
  : KeyMap.t (list (Row JSValue)) :=
  match data with
  | [] => organized
  | row :: rest =>
      organize_loopJS rest (S position) (organize_stepJS organized position row)
  end.

(** [organizeData] on the records of a run. *)
Definition organizeDataJS (data : list (Row JSValue))
  : KeyMap.t (list (Row JSValue)) :=
  organize_loopJS data 0 [].

(** The text of a value inside a template literal. *)
Definition text (host : Host) (v : JSValue) : Outcome string :=
  match v with
  | JString s => Done s
  | _ => ToString host v
  end.

Definition csv_rowJS (host : Host) (d : Row JSValue) : Outcome string :=
  bindO (text host (id d)) (fun i =>
  bindO (text host (name d)) (fun n =>
  bindO (text host (category d)) (fun c =>
  Done (template [dquote; i; dquote; ","; dquote; n; dquote; ",";
                  dquote; c; dquote; ","; dquote; timestamp d; dquote; ",";
                  string_of_boolean (processed d)])))).

(** [Array.prototype.map] with a callback that may throw. *)
Fixpoint map_outcome {A B : Type} (f : A -> Outcome B) (xs : list A)
  : Outcome (list B) :=
  match xs with
  | [] => Done []
  | x :: rest =>
      bindO (f x) (fun b =>
      bindO (map_outcome f rest) (fun bs => Done (b :: bs)))
  end.

(** [convertToCSV] on the records of a run. *)
Definition convertToCSVJS (host : Host) (data : list (Row JSValue))
  : Outcome string :=
  bindO (map_outcome (csv_rowJS host) data) (fun rows =>
  Done (join newline (headers :: rows))).

(** ** [generateCSVOutput] *)

(** [path.join(this.outputDir, `${lowered}_${Date.now()}.csv`)] *)
Definition csv_path (host : Host) (lowered : string) (turn : nat) : string :=
  path_join host outputDir
    (template [lowered; "_"; string_of_index (Date_now host turn); ".csv"]).

(** The loop [for (const [category, rows] of organized)], from turn [turn]
    on.  [toCSV rows] is [this.convertToCSV(rows)] and [lower category] is
    [category.toLowerCase()]; a throw of either, or of the write, ends the
    loop and leaves the state as the earlier turns made it. *)
Fixpoint emit {K R : Type} (host : Host) (lower : K -> Outcome string)
  (toCSV : list R -> Outcome string) (organized : list (K * list R))
  (turn : nat) (s : State) : Outcome unit * State :=
  match organized with
  | [] => (Done tt, s)
  | (category, rows) :: rest =>
      match toCSV rows with
      | Failed f => (Failed f, s)
      | Done csvContent =>
          match lower category with
          | Failed f => (Failed f, s)
          | Done lowered =>
              let filepath := csv_path host lowered turn in
              if write_succeeds host filepath then
                emit host lower toCSV rest (S turn)
                     {| processedCount := processedCount s + List.length rows;
                        written := written s ++ [(filepath, csvContent)] |}
              else (Failed (WriteFailed filepath), s)
          end
      end
  end.


(** [category.toLowerCase()] on a key of a run: only a string has the
    method. *)
Definition lowerJS (host : Host) (category : Key) : Outcome string :=
  match category with
  | KValue (JString s) => Done (toLowerCase host s)
  | _ => Failed (Thrown TypeError)
  end.

(** [generateCSVOutput] on the buckets of a run. *)
Definition generateCSVOutputJS (host : Host)
  (organized : KeyMap.t (list (Row JSValue))) (s : State)
  : Outcome unit * State :=
  emit host (lowerJS host) (convertToCSVJS host) organized 0 s.

(** ** [generateReport] and [runAutomation] *)

(** The report object that [generateReport] serialises (its two clock fields
    left out). *)
Definition generateReport (s : State) : Report :=
  {| totalRecordsProcessed := processedCount s;
     outputDirectory := outputDir;
     status := "SUCCESS" |}.

(** A record of the declared type as a record of a run. *)
Definition untyped (d : DataRow) : Row JSValue :=
  {| id := JString (id d); name := JString (name d);
     category := JString (category d);
     timestamp := timestamp d; processed := processed d |}.

(** Steps 3 to 5 and 7 of [runAutomation], for a read step that returned the
    string-typed records [data]: the [catch] rethrows, so a failure of step 5
    is the failure of the run and no report is made. *)
Definition runAutomation (host : Host) (data : list DataRow) (s : State)
  : Outcome Report * State :=
  let data := map untyped data in
  let cleanedData := cleanDataJS data in
  let organizedData := organizeDataJS cleanedData in
  match generateCSVOutputJS host organizedData s with
  | (Failed f, s') => (Failed f, s')
  | (Done _, s') => (Done (generateReport s'), s')
  end.

(** [runAutomation] on the files of the input directory: read, clean,
    organize, emit, report.  The [catch] rethrows, so a throwing step ends
    the run: what was counted and written stays and there is no report.
    Steps 1 and 6 (creating the two directories, moving the input files to
    the archive) touch neither the records nor the bot's field; the second
    is [archiveProcessedFilesOn]. *)
Definition runAutomationOn (host : Host)
  (JSON_parse : string -> option JSValue) (now : string -> nat -> string)
  (files : Files) (s : State) : Outcome Report * State :=
  match readInputFiles JSON_parse now files with
  | Throw e => (Failed (Thrown e), s)
  | Ok data =>
      let cleanedData := cleanDataJS data in
      let organizedData := organizeDataJS cleanedData in
      match generateCSVOutputJS host organizedData s with
      | (Failed f, s') => (Failed f, s')
      | (Done _, s') => (Done (generateReport s'), s')
      end
  end.

(** ** Reference notions the properties are stated with *)

(** The distinct strings of [ks], each at the place of its first occurrence. *)
Fixpoint first_seen (ks : list string) : list string :=
  match ks with
  | [] => []
  | k :: rest =>
      k :: filter (fun k' => negb (String.eqb k k')) (first_seen rest)
  end.

Definition has_id (i : string) (d : DataRow) : bool := String.eqb (id d) i.

(** The last record of [data], in arrival order, whose id is [i]. *)
Definition last_with_id (i : string) (data : list DataRow) : option DataRow :=
  find (has_id i) (rev data).

(** None of id, name and category is the empty string. *)
Definition all_non_empty (d : DataRow) : bool :=
  negb (String.eqb (id d) "") && negb (String.eqb (name d) "") &&
  negb (String.eqb (category d) "").

Definition in_category (c : string) (d : DataRow) : bool :=
  String.eqb (category d) c.

(** The bucket of category [c]: the records of [data] with that category,
    in the order of [data]. *)
Definition bucket (data : list DataRow) (c : string)
  : string * list DataRow :=
  (c, filter (in_category c) data).

(** An entry of the map once the records of [data] have been pushed. *)
Definition extend (data : list DataRow) (e : string * list DataRow)
  : string * list DataRow :=
  (fst e, snd e ++ filter (in_category (fst e)) data).

(** Append [r] to the bucket under [c], creating it at the end if needed. *)
Fixpoint push_to (c : string) (r : DataRow) (m : JSMap.t (list DataRow))
  : JSMap.t (list DataRow) :=
  match m with
  | [] => [(c, [r])]
  | (k, rows) :: m' =>
      if String.eqb k c then (k, rows ++ [r]) :: m'
      else (k, rows) :: push_to c r m'
  end.

(** A field wrapped in double quotes, and a data line as the output format
    describes it. *)
Definition quoted (s : string) : string :=
  String.append dquote (String.append s dquote).

Definition csv_line (d : DataRow) : string :=
  String.append (quoted (id d)) (String.append ","
  (String.append (quoted (name d)) (String.append ","
  (String.append (quoted (category d)) (String.append ","
  (String.append (quoted (timestamp d)) (String.append ","
  (string_of_boolean (processed d))))))))).

(** Records used in the worked examples. *)
Definition row (i n c : string) : DataRow :=
  {| id := i; name := n; category := c;
     timestamp := "2025-12-03T10:30:00Z"; processed := false |}.

(** A stand-in for [JSON.parse] that knows two documents only. *)
Definition parse_null_documents (content : string) : option JSValue :=
  if String.eqb content "null" then Some JNull
  else if String.eqb content "[null]" then Some (JArray [JNull])
  else None.

(** The parsed document is [null] or an array with a [null] element. *)
Definition has_null_item (parsed : JSValue) : Prop :=
  match parsed with
  | JNull => True
  | JArray elements => In JNull elements
  | _ => False
  end.

(** No element of the parsed document is [null]. *)
Definition no_null_item (parsed : JSValue) : Prop :=
  match parsed with
  | JNull => False
  | JArray elements => ~ In JNull elements
  | _ => True
  end.

(** The input of the worked scenario: Alice, Bob, and Alice again under
    id 1. *)
Definition scenario : list DataRow :=
  [row "1" "Alice" "Team"; row "2" "Bob" "Team"; row "1" "Alice2" "Team"].

(** An element whose [id] is absent or falsy, so that the positional id is
    used. *)
Definition lacks_id (item : JSValue) : bool :=
  match item with
  | JObject props =>
      match own_property "id" props with
      | Some v => negb (to_boolean v)
      | None => true
      end
  | JNull => false
  | _ => true
  end.

(** The number of elements [parseData] maps over. *)
Definition element_count (parsed : JSValue) : nat :=
  match parsed with
  | JArray elements => List.length elements
  | _ => 1
  end.

(** All three keyed fields of a parsed record are truthy and it is not yet
    processed. *)
Definition well_filled (r : Row JSValue) : Prop :=
  to_boolean (id r) = true /\ to_boolean (name r) = true /\
  to_boolean (category r) = true /\ processed r = false.

(** The number of line feeds in a string. *)
Fixpoint line_feeds (s : string) : nat :=
  match s with
  | EmptyString => 0
  | String a rest =>
      (if Ascii.eqb a "010"%char then 1 else 0) + line_feeds rest
  end.

(** No field of the record holds a line feed. *)
Definition single_line (d : DataRow) : Prop :=
  line_feeds (id d) = 0 /\ line_feeds (name d) = 0 /\
  line_feeds (category d) = 0 /\ line_feeds (timestamp d) = 0.

(** A document of three elements: an object with a numeric id and an empty
    name, a bare string, and an array. *)
Definition sample_document : JSValue :=
  JArray [JObject [("id", JNumber PrimFloat.one); ("name", JString "")];
          JString "loose"; JArray []].

Definition sample_clock (idx : nat) : string := "2025-12-03T10:30:00Z".

(** An input directory with one file of each kind and an older archive. *)
Definition sample_dir : InputDir :=
  {| listing := [("people.json", "[1]"); ("notes.txt", "n");
                 ("old.csv", "a,b")];
     archiveDir := Some [("people.json", "[0]")] |}.

(** The number of records held by all buckets together. *)
Definition records_in {K R : Type} (organized : list (K * list R)) : nat :=
  List.length (List.concat (map snd organized)).

(** The buckets [generateCSVOutput] gets written, from turn [turn] on: those
    before the first one whose text, lower-cased name or write fails. *)
Fixpoint written_buckets {K R : Type} (host : Host)
  (lower : K -> Outcome string) (toCSV : list R -> Outcome string)
  (organized : list (K * list R)) (turn : nat) : list (K * list R) :=
  match organized with
  | [] => []
  | (category, rows) :: rest =>
      match toCSV rows, lower category with
      | Done _, Done lowered =>
          if write_succeeds host (csv_path host lowered turn)
          then (category, rows) ::
               written_buckets host lower toCSV rest (S turn)
          else []
      | _, _ => []
      end
  end.

(** Every bucket can be written. *)
Fixpoint can_emit {K R : Type} (host : Host)
  (lower : K -> Outcome string) (toCSV : list R -> Outcome string)
  (organized : list (K * list R)) (turn : nat) : bool :=
  match organized with
  | [] => true
  | (category, rows) :: rest =>
      match toCSV rows, lower category with
      | Done _, Done lowered =>
          write_succeeds host (csv_path host lowered turn) &&
          can_emit host lower toCSV rest (S turn)
      | _, _ => false
      end
  end.

(** The buckets of the records a run reads and cleans. *)
Definition buckets_of_run (JSON_parse : string -> option JSValue)
  (now : string -> nat -> string) (files : Files)
  : KeyMap.t (list (Row JSValue)) :=
  match readInputFiles JSON_parse now files with
  | Ok data => organizeDataJS (cleanDataJS data)
  | Throw _ => []
  end.

(** The number of records in the documents a run gets written. *)
Definition emitted_in_run (host : Host)
  (JSON_parse : string -> option JSValue) (now : string -> nat -> string)
  (files : Files) : nat :=
  records_in (written_buckets host (lowerJS host) (convertToCSVJS host)
                (buckets_of_run JSON_parse now files) 0).


(** A stand-in host: lower case on the letters A to Z, one text for all
    values that are not strings, paths joined with a slash, a clock that stands
    still, and an output directory without subdirectories, so that a write
    succeeds when the path has the three slashes of
    ./data/output/<file> and no more. *)
Definition lower_letter (a : ascii) : ascii :=
  let n := nat_of_ascii a in
  if Nat.leb 65 n && Nat.leb n 90 then ascii_of_nat (n + 32) else a.

Fixpoint lower_letters (s : string) : string :=
  match s with
  | EmptyString => EmptyString
  | String a rest => String (lower_letter a) (lower_letters rest)
  end.

Fixpoint slashes (s : string) : nat :=
  match s with
  | EmptyString => 0
  | String a rest => (if Ascii.eqb a "/"%char then 1 else 0) + slashes rest
  end.

Definition flat_host : Host :=
  {| toLowerCase := lower_letters;
     ToString := fun _ => Done "[value]";
     path_join := fun dir file => String.append dir (String.append "/" file);
     Date_now := fun _ => 1700;
     write_succeeds := fun path => Nat.eqb (slashes path) 3 |}.

Definition record (i n c : string) : JSValue :=
  JObject [("id", JString i); ("name", JString n); ("category", JString c)].

(** A stand-in for [JSON.parse] that knows three documents: the scenario,
    a document with a slash in a category, and one with a numeric
    category. *)
Definition parse_samples (content : string) : option JSValue :=
  if String.eqb content "scenario" then
    Some (JArray [record "1" "Alice" "Team"; record "2" "Bob" "Team";
                  record "1" "Alice2" "Team"])
  else if String.eqb content "slash" then
    Some (JArray [record "1" "Alice" "Team"; record "2" "Bob" "N/A";
                  record "3" "Carol" "Work"])
  else if String.eqb content "numeric" then
    Some (JArray [record "1" "Alice" "Team";
                  JObject [("id", JString "2"); ("name", JString "Bob");
                           ("category", JNumber PrimFloat.one)]])
  else None.

Definition still_clock (file : string) (idx : nat) : string :=
  "2025-12-03T10:30:00Z".

(** * Properties *)

(** ** Lists and filters *)

Lemma filter_twice {A : Type} (p q : A -> bool) (l : list A) :
  filter p (filter q l) = filter (fun x => q x && p x) l.
Proof.
  induction l as [|x l IH]; simpl; [reflexivity|].
  destruct (q x); simpl; [destruct (p x)|]; now rewrite IH.
Qed.

Lemma filter_all {A : Type} (p : A -> bool) (l : list A) :
  (forall x, In x l -> p x = true) -> filter p l = l.
Proof.
  induction l as [|x l IH]; simpl; intros H; [reflexivity|].
  rewrite (H x (or_introl eq_refl)). f_equal. apply IH. auto.
Qed.

Lemma distinct_ids_filter (keep : DataRow -> bool) (rows : list DataRow) :
  NoDup (map (@id string) rows) ->
  NoDup (map (@id string) (filter keep rows)).
Proof.
  intros Hrows. induction rows as [|d rows IH]; simpl; [constructor|].
  simpl in Hrows. apply NoDup_cons_iff in Hrows as [Hd Hrows].
  destruct (keep d); simpl; [|now apply IH].
  apply NoDup_cons_iff. split; [|now apply IH].
  rewrite in_map_iff. intros [d' [Heq Hin]].
  apply filter_In in Hin as [Hin _].
  apply Hd. rewrite <- Heq. now apply in_map.
Qed.

Lemma NoDup_snoc {A : Type} (x : A) (l : list A) :
  NoDup l -> ~ In x l -> NoDup (l ++ [x]).
Proof.
  intros Hl Hx. apply NoDup_rev in Hl.
  rewrite <- (rev_involutive (l ++ [x])). apply NoDup_rev.
  rewrite rev_app_distr. simpl. constructor; [|assumption].
  now rewrite <- in_rev.
Qed.

(** ** The insertion-ordered map *)

Section JSMapFacts.
Variable V : Type.
Implicit Types (m : JSMap.t V) (k : string) (v : V).

Lemma has_In k m : JSMap.has k m = true <-> In k (JSMap.keys m).
Proof.
  induction m as [|[k' v'] m IH]; simpl; [split; [discriminate|tauto]|].
  destruct (String.eqb_spec k' k) as [->|Hne]; [tauto|].
  rewrite IH. split; [auto|]. intros [H|H]; [contradiction|exact H].
Qed.

Lemma has_false_In k m : JSMap.has k m = false <-> ~ In k (JSMap.keys m).
Proof.
  rewrite <- has_In. destruct (JSMap.has k m); split; congruence.
Qed.

Lemma get_has k m : JSMap.has k m = false -> JSMap.get k m = None.
Proof.
  induction m as [|[k' v'] m IH]; simpl; [reflexivity|].
  destruct (String.eqb k' k); [discriminate|exact IH].
Qed.

Lemma set_absent k v m :
  JSMap.has k m = false -> JSMap.set k v m = m ++ [(k, v)].
Proof.
  induction m as [|[k' v'] m IH]; simpl; [reflexivity|].
  destruct (String.eqb k' k); [discriminate|].
  intros H. now rewrite IH.
Qed.

Lemma keys_set_present k v m :
  JSMap.has k m = true -> JSMap.keys (JSMap.set k v m) = JSMap.keys m.
Proof.
  induction m as [|[k' v'] m IH]; simpl; [discriminate|].
  destruct (String.eqb k' k); simpl; [reflexivity|].
  intros H. now rewrite IH.
Qed.

Lemma get_set k k' v m :
  JSMap.get k (JSMap.set k' v m) =
  if String.eqb k' k then Some v else JSMap.get k m.
Proof.
  induction m as [|[k0 v0] m IH]; simpl.
  - destruct (String.eqb k' k); reflexivity.
  - destruct (String.eqb_spec k0 k') as [->|Hne]; simpl.
    + destruct (String.eqb k' k); reflexivity.
    + rewrite IH. destruct (String.eqb_spec k0 k) as [->|Hne'];
        [|reflexivity].
      destruct (String.eqb_spec k' k) as [->|_]; [contradiction|reflexivity].
Qed.

Lemma NoDup_keys_set k v m :
  NoDup (JSMap.keys m) -> NoDup (JSMap.keys (JSMap.set k v m)).
Proof.
  intros H. destruct (JSMap.has k m) eqn:E.
  - now rewrite keys_set_present.
  - rewrite set_absent by assumption. unfold JSMap.keys.
    rewrite map_app. simpl. apply NoDup_snoc; [exact H|].
    now apply has_false_In.
Qed.

(** With distinct keys, the entries under [k] are the one [get] finds. *)
Lemma filter_key_get k m :
  NoDup (JSMap.keys m) ->
  filter (fun e => String.eqb (fst e) k) m =
  match JSMap.get k m with Some v => [(k, v)] | None => [] end.
Proof.
  induction m as [|[k' v'] m IH]; simpl; [reflexivity|].
  intros H. inversion H as [|? ? Hk Hm]; subst.
  destruct (String.eqb_spec k' k) as [->|Hne]; [|exact (IH Hm)].
  f_equal. rewrite IH by assumption.
  rewrite get_has; [reflexivity|]. now apply has_false_In.
Qed.
End JSMapFacts.

Section OfEntries.
Variable V : Type.
Implicit Types (m es : JSMap.t V) (k : string) (v : V).

Local Abbreviation put := (@JSMap.put V).

Lemma has_set k k' v m :
  JSMap.has k' (JSMap.set k v m) = JSMap.has k' m || String.eqb k k'.
Proof.
  induction m as [|[k0 v0] m IH]; simpl.
  - destruct (String.eqb k k'); reflexivity.
  - destruct (String.eqb_spec k0 k) as [->|Hne]; simpl.
    + destruct (String.eqb k k'); [reflexivity|].
      now rewrite orb_false_r.
    + destruct (String.eqb k0 k'); [reflexivity|exact IH].
Qed.

Lemma get_app k (l1 l2 : JSMap.t V) :
  JSMap.get k (l1 ++ l2) =
  match JSMap.get k l1 with Some v => Some v | None => JSMap.get k l2 end.
Proof.
  induction l1 as [|[k0 v0] l1 IH]; simpl; [reflexivity|].
  destruct (String.eqb k0 k); [reflexivity|exact IH].
Qed.

(** Keys come out in first-insertion order. *)
Lemma keys_fold_set es : forall m,
  JSMap.keys (fold_left put es m) =
  JSMap.keys m ++
  filter (fun k => negb (JSMap.has k m)) (first_seen (map fst es)).
Proof.
  induction es as [|[k v] es IH]; intros m; simpl.
  - now rewrite app_nil_r.
  - rewrite IH. unfold JSMap.put at 1 2; simpl.
    assert (Hp : filter (fun k' => negb (JSMap.has k' (JSMap.set k v m)))
                   (first_seen (map fst es)) =
                 filter (fun k' => negb (JSMap.has k' m))
                   (filter (fun k' => negb (String.eqb k k'))
                      (first_seen (map fst es)))).
    { rewrite filter_twice. apply filter_ext. intros k'.
      rewrite has_set. destruct (JSMap.has k' m), (String.eqb k k');
        reflexivity. }
    rewrite Hp. destruct (JSMap.has k m) eqn:E; simpl.
    + now rewrite keys_set_present.
    + rewrite set_absent by assumption. unfold JSMap.keys.
      rewrite map_app, <- app_assoc. reflexivity.
Qed.

(** The value under a key is the one set last. *)
Lemma get_fold_set k es : forall m,
  JSMap.get k (fold_left put es m) =
  match JSMap.get k (rev es) with
  | Some v => Some v
  | None => JSMap.get k m
  end.
Proof.
  induction es as [|[k' v] es IH]; intros m; simpl; [reflexivity|].
  rewrite IH, get_app. unfold JSMap.put; simpl.
  destruct (JSMap.get k (rev es)); [reflexivity|].
  rewrite get_set. destruct (String.eqb k' k); reflexivity.
Qed.

Lemma NoDup_keys_fold_set es : forall m,
  NoDup (JSMap.keys m) -> NoDup (JSMap.keys (fold_left put es m)).
Proof.
  induction es as [|e es IH]; intros m H; simpl; [exact H|].
  apply IH. now apply NoDup_keys_set.
Qed.

(** Entries whose keys are new and distinct are appended as they are. *)
Lemma fold_set_distinct es : forall m,
  NoDup (map fst es) ->
  (forall k, In k (map fst es) -> JSMap.has k m = false) ->
  fold_left put es m = m ++ es.
Proof.
  induction es as [|[k v] es IH]; intros m Hnd Hnew; simpl.
  - now rewrite app_nil_r.
  - inversion Hnd as [|? ? Hk Hes]; subst. unfold JSMap.put at 2; simpl.
    rewrite set_absent by (apply Hnew; simpl; auto).
    rewrite IH; [now rewrite <- app_assoc|assumption|].
    intros k' Hk'. apply has_false_In. unfold JSMap.keys.
    rewrite map_app, in_app_iff. simpl. intros [H|[H|[]]].
    + apply has_In in H. rewrite Hnew in H by (simpl; auto). discriminate.
    + subst. contradiction.
Qed.

Lemma of_entries_keys es :
  JSMap.keys (JSMap.of_entries es) = first_seen (map fst es).
Proof.
  unfold JSMap.of_entries. rewrite keys_fold_set. simpl.
  apply filter_all. reflexivity.
Qed.

Lemma of_entries_get k es :
  JSMap.get k (JSMap.of_entries es) = JSMap.get k (rev es).
Proof.
  unfold JSMap.of_entries. rewrite get_fold_set.
  destruct (JSMap.get k (rev es)); reflexivity.
Qed.

Lemma of_entries_NoDup es : NoDup (JSMap.keys (JSMap.of_entries es)).
Proof. apply NoDup_keys_fold_set. constructor. Qed.

Lemma of_entries_distinct es :
  NoDup (map fst es) -> JSMap.of_entries es = es.
Proof.
  intros H. unfold JSMap.of_entries. fold put.
  now rewrite fold_set_distinct.
Qed.

Lemma of_entries_In (e : string * V) es :
  In e (JSMap.of_entries es) -> In e es.
Proof.
  destruct e as [k v]. intros Hin.
  assert (Hg : JSMap.get k (JSMap.of_entries es) = Some v).
  { pose proof (filter_key_get k _ (of_entries_NoDup es)) as Hf.
    assert (Hk : In (k, v) (filter (fun e => String.eqb (fst e) k)
                              (JSMap.of_entries es))).
    { apply filter_In. split; [exact Hin|]. simpl. apply String.eqb_refl. }
    rewrite Hf in Hk. destruct (JSMap.get k (JSMap.of_entries es));
      simpl in Hk; [|contradiction].
    destruct Hk as [Hk|[]]. congruence. }
  rewrite of_entries_get in Hg. apply in_rev.
  revert Hg. generalize (rev es). intros l.
  induction l as [|[k0 v0] l IH]; simpl; [discriminate|].
  destruct (String.eqb_spec k0 k) as [->|_]; [|auto].
  intros [= ->]. auto.
Qed.
End OfEntries.

(** ** [cleanData]: deduplication *)

Lemma unique_keyed data :
  unique data = JSMap.values (JSMap.of_entries (keyed data)).
Proof. reflexivity. Qed.

Lemma keyed_fst data : map fst (keyed data) = map (@id string) data.
Proof. unfold keyed. rewrite map_map. reflexivity. Qed.

Lemma keyed_snd data : map snd (keyed data) = data.
Proof. unfold keyed. rewrite map_map. simpl. apply map_id. Qed.

(** Every entry of the deduplication map sits under its own id. *)
Lemma keyed_entry data (e : string * DataRow) :
  In e (JSMap.of_entries (keyed data)) -> id (snd e) = fst e /\ In (snd e) data.
Proof.
  intros H. apply of_entries_In in H. unfold keyed in H.
  apply in_map_iff in H as [d [<- Hd]]. simpl. auto.
Qed.

Lemma filter_map_comm {A B : Type} (f : A -> B) (p : B -> bool) (l : list A) :
  filter p (map f l) = map f (filter (fun a => p (f a)) l).
Proof.
  induction l as [|a l IH]; simpl; [reflexivity|].
  destruct (p (f a)); simpl; now rewrite IH.
Qed.

Lemma get_keyed i (l : list DataRow) :
  JSMap.get i (keyed l) = find (has_id i) l.
Proof.
  induction l as [|d l IH]; simpl; [reflexivity|].
  unfold has_id at 1. destruct (String.eqb (id d) i); [reflexivity|exact IH].
Qed.

Lemma unique_ids data :
  map (@id string) (unique data) = first_seen (map (@id string) data).
Proof.
  rewrite unique_keyed, <- (keyed_fst data), <- of_entries_keys.
  unfold JSMap.values, JSMap.keys. rewrite map_map.
  apply map_ext_in. intros e He. now apply keyed_entry in He.
Qed.

Lemma unique_NoDup data : NoDup (map (@id string) (unique data)).
Proof.
  pose proof (of_entries_NoDup (keyed data)) as H.
  replace (map (@id string) (unique data))
    with (JSMap.keys (JSMap.of_entries (keyed data))); [exact H|].
  rewrite unique_keyed. unfold JSMap.values, JSMap.keys. rewrite map_map.
  apply map_ext_in. intros e He. apply keyed_entry in He. symmetry. tauto.
Qed.

Lemma unique_by_id data i :
  filter (has_id i) (unique data) =
  match last_with_id i data with Some r => [r] | None => [] end.
Proof.
  rewrite unique_keyed. unfold JSMap.values. rewrite filter_map_comm.
  assert (Hf : filter (fun e : string * DataRow => has_id i (snd e))
                 (JSMap.of_entries (keyed data)) =
               filter (fun e => String.eqb (fst e) i)
                 (JSMap.of_entries (keyed data))).
  { apply filter_ext_in. intros e He. apply keyed_entry in He as [He _].
    unfold has_id. now rewrite He. }
  rewrite Hf, filter_key_get by apply of_entries_NoDup.
  rewrite of_entries_get. unfold keyed. rewrite <- map_rev.
  fold (keyed (rev data)). rewrite get_keyed. unfold last_with_id.
  destruct (find (has_id i) (rev data)); reflexivity.
Qed.

(** [last_with_id] is the last occurrence: nothing after it has the id. *)
Lemma last_with_id_split i data r :
  last_with_id i data = Some r <->
  id r = i /\ exists before after,
    data = before ++ r :: after /\ forall d, In d after -> id d <> i.
Proof.
  unfold last_with_id, has_id. split.
  - revert r. induction data as [|d data IH] using rev_ind; intros r;
      [discriminate|].
    rewrite rev_app_distr. simpl.
    destruct (String.eqb_spec (id d) i) as [Hd|Hd].
    + intros [= ->]. split; [exact Hd|].
      exists data, []. split; [reflexivity|]. intros ? [].
    + intros H. destruct (IH _ H) as [Hr [b [a [-> Ha]]]].
      split; [exact Hr|]. exists b, (a ++ [d]).
      split; [now rewrite <- app_assoc|].
      intros d' Hd'. apply in_app_iff in Hd' as [Hd'|[<-|[]]]; auto.
  - intros [Hr [b [a [-> Ha]]]]. rewrite rev_app_distr. simpl.
    rewrite <- app_assoc. simpl.
    induction a as [|d a IH] using rev_ind; simpl.
    + now rewrite Hr, String.eqb_refl.
    + rewrite rev_app_distr. simpl.
      destruct (String.eqb_spec (id d) i) as [Hd|_].
      * exfalso. apply (Ha d); [apply in_app_iff; simpl; auto|exact Hd].
      * apply IH. intros d' Hd'. apply Ha. apply in_app_iff. auto.
Qed.

Lemma last_with_id_present i data :
  In i (map (@id string) data) -> exists r, last_with_id i data = Some r.
Proof.
  intros H. apply in_map_iff in H as [d [Hd Hin]]. unfold last_with_id.
  destruct (find (has_id i) (rev data)) eqn:E; [eauto|].
  exfalso. pose proof (find_none _ _ E d) as Hn. unfold has_id in Hn.
  rewrite Hd, String.eqb_refl in Hn.
  apply in_rev in Hin. specialize (Hn Hin). discriminate.
Qed.

Example first_seen_example :
  first_seen ["a"; "b"; "a"; "c"; "b"] = ["a"; "b"; "c"].
Proof. reflexivity. Qed.

Example last_with_id_example :
  last_with_id "1" scenario = Some (row "1" "Alice2" "Team").
Proof. reflexivity. Qed.

Example scenario_cleaned :
  cleanData scenario = [row "1" "Alice2" "Team"; row "2" "Bob" "Team"].
Proof. reflexivity. Qed.

Example empty_category_dropped :
  cleanData [row "7" "Zed" ""; row "8" "Yan" "Work"] = [row "8" "Yan" "Work"].
Proof. reflexivity. Qed.

(** C1: the deduplication step of [cleanData] keeps, for every id, exactly
    the last record of the input carrying that id (and nothing for an id the
    input does not have); on the two records with id "1" named "A" then "B"
    the result is the single record named "B". *)
Theorem C1_dedup_last_wins :
  (forall data i,
     filter (has_id i) (unique data) =
     match last_with_id i data with Some r => [r] | None => [] end) /\
  (forall data, NoDup (map (@id string) (unique data))) /\
  unique [row "1" "A" "Team"; row "1" "B" "Team"] = [row "1" "B" "Team"] /\
  cleanData [row "1" "A" "Team"; row "1" "B" "Team"] = [row "1" "B" "Team"].
Proof.
  split; [exact unique_by_id|].
  split; [exact unique_NoDup|].
  split; reflexivity.
Qed.

(** C4: the ids of the deduplicated sequence are the distinct ids of the
    input in the order of their first occurrence; with ids 1, 2, 1 the
    survivor of id 1 (the third record) comes before the record of id 2. *)
Theorem C4_dedup_order_first_seen :
  (forall data,
     map (@id string) (unique data) = first_seen (map (@id string) data)) /\
  unique [row "1" "A" "Team"; row "2" "B" "Team"; row "1" "C" "Team"] =
    [row "1" "C" "Team"; row "2" "B" "Team"].
Proof.
  split; [exact unique_ids|reflexivity].
Qed.

(** ** [cleanData]: validation *)

Lemma required_fields_spec d : required_fields d = all_non_empty d.
Proof.
  unfold required_fields, all_non_empty, js_and, truthy.
  destruct (String.eqb (id d) "") eqn:Ei; simpl.
  - rewrite Ei; simpl. now rewrite Ei.
  - destruct (String.eqb (name d) "") eqn:En; simpl; [|reflexivity].
    now rewrite En.
Qed.

Lemma all_non_empty_iff d :
  all_non_empty d = true <-> id d <> "" /\ name d <> "" /\ category d <> "".
Proof.
  unfold all_non_empty.
  destruct (String.eqb_spec (id d) ""), (String.eqb_spec (name d) ""),
    (String.eqb_spec (category d) ""); simpl; split; intros H;
    try discriminate; try tauto.
Qed.

(** [cleanData] as a whole: under an id it returns the last record with that
    id when that record passes validation, and never an earlier one. *)
Lemma cleanData_by_id data i :
  filter (has_id i) (cleanData data) =
  match last_with_id i data with
  | Some r => if all_non_empty r then [r] else []
  | None => []
  end.
Proof.
  unfold cleanData. rewrite filter_twice.
  rewrite (filter_ext (fun x => required_fields x && has_id i x)
                      (fun x => has_id i x && all_non_empty x)).
  - rewrite <- filter_twice, unique_by_id.
    destruct (last_with_id i data) as [r|]; reflexivity.
  - intros x. rewrite required_fields_spec. apply andb_comm.
Qed.

(** C2: [cleanData] returns the deduplicated sequence filtered, in order, by
    the test that id, name and category are all non-empty; so a record of the
    deduplicated sequence survives exactly when its three fields are
    non-empty. *)
Theorem C2_validation_complete_and_stable :
  forall data,
    cleanData data = filter all_non_empty (unique data) /\
    forall r, In r (cleanData data) <->
              In r (unique data) /\
              id r <> "" /\ name r <> "" /\ category r <> "".
Proof.
  intros data.
  assert (H : cleanData data = filter all_non_empty (unique data)).
  { unfold cleanData. apply filter_ext. exact required_fields_spec. }
  split; [exact H|].
  intros r. rewrite H, filter_In, all_non_empty_iff. reflexivity.
Qed.

(** ** [cleanData]: idempotence *)

Lemma unique_distinct data :
  NoDup (map (@id string) data) -> unique data = data.
Proof.
  intros H. rewrite unique_keyed, of_entries_distinct.
  - apply keyed_snd.
  - now rewrite keyed_fst.
Qed.

Lemma cleanData_NoDup data : NoDup (map (@id string) (cleanData data)).
Proof.
  unfold cleanData. apply distinct_ids_filter. apply unique_NoDup.
Qed.

(** C9: cleaning the output of [cleanData] returns it unchanged. *)
Theorem C9_cleanData_idempotent :
  forall data, cleanData (cleanData data) = cleanData data.
Proof.
  intros data. unfold cleanData at 1.
  rewrite unique_distinct by apply cleanData_NoDup.
  apply filter_all. intros r Hr. unfold cleanData in Hr.
  now apply filter_In in Hr.
Qed.

(** ** [organizeData] *)

Section Organize.
Implicit Types (m : JSMap.t (list DataRow)) (r : DataRow) (c : string).

Lemma has_get c m :
  JSMap.has c m = true -> exists rows, JSMap.get c m = Some rows.
Proof.
  induction m as [|[k w] m IH]; simpl; [discriminate|].
  destruct (String.eqb k c); eauto.
Qed.

Lemma set_push c r m rows :
  JSMap.get c m = Some rows ->
  JSMap.set c (rows ++ [r]) m = push_to c r m.
Proof.
  induction m as [|[k w] m IH]; simpl; [discriminate|].
  destruct (String.eqb k c).
  - now intros [= ->].
  - intros H. now rewrite IH.
Qed.

Lemma set_app_absent c (v : list DataRow) m l :
  JSMap.has c m = false -> JSMap.set c v (m ++ l) = m ++ JSMap.set c v l.
Proof.
  induction m as [|[k w] m IH]; simpl; [reflexivity|].
  destruct (String.eqb k c); [discriminate|].
  intros H. now rewrite IH.
Qed.

Lemma push_to_absent c r m :
  JSMap.has c m = false -> push_to c r m = m ++ [(c, [r])].
Proof.
  induction m as [|[k w] m IH]; simpl; [reflexivity|].
  destruct (String.eqb k c); [discriminate|].
  intros H. now rewrite IH.
Qed.

(** The loop body is [push_to]; its [None] branch is never taken. *)
Lemma organize_step_push m r :
  organize_step m r = push_to (category r) r m.
Proof.
  unfold organize_step. destruct (JSMap.has (category r) m) eqn:E; simpl.
  - destruct (has_get _ _ E) as [rows Hg]. rewrite Hg.
    now apply set_push.
  - rewrite set_absent, get_app, get_has by assumption. simpl.
    rewrite String.eqb_refl, set_app_absent by assumption. simpl.
    rewrite String.eqb_refl. now rewrite push_to_absent.
Qed.

Lemma organize_step_bucket_defined m r :
  let organized :=
    if negb (JSMap.has (category r) m)
    then JSMap.set (category r) [] m else m in
  JSMap.get (category r) organized <> None.
Proof.
  simpl. destruct (JSMap.has (category r) m) eqn:E; simpl.
  - clear -E. induction m as [|[k w] m IH]; simpl in *; [discriminate|].
    destruct (String.eqb k (category r)); [discriminate|auto].
  - now rewrite get_set, String.eqb_refl.
Qed.

Lemma keys_push_to_present c r m :
  JSMap.has c m = true -> JSMap.keys (push_to c r m) = JSMap.keys m.
Proof.
  induction m as [|[k w] m IH]; simpl; [discriminate|].
  destruct (String.eqb k c); simpl; [reflexivity|].
  intros H. now rewrite IH.
Qed.

Lemma has_push_to c c' r m :
  JSMap.has c' (push_to c r m) = JSMap.has c' m || String.eqb c c'.
Proof.
  induction m as [|[k w] m IH]; simpl.
  - destruct (String.eqb c c'); reflexivity.
  - destruct (String.eqb_spec k c) as [->|Hne]; simpl.
    + destruct (String.eqb c c'); [reflexivity|now rewrite orb_false_r].
    + destruct (String.eqb k c'); [reflexivity|exact IH].
Qed.

Lemma NoDup_keys_push_to c r m :
  NoDup (JSMap.keys m) -> NoDup (JSMap.keys (push_to c r m)).
Proof.
  intros H. destruct (JSMap.has c m) eqn:E.
  - now rewrite keys_push_to_present.
  - rewrite push_to_absent by assumption. unfold JSMap.keys.
    rewrite map_app. simpl. apply NoDup_snoc; [exact H|].
    now apply has_false_In.
Qed.

Lemma extend_absent r data m :
  JSMap.has (category r) m = false ->
  map (extend (r :: data)) m = map (extend data) m.
Proof.
  intros H. apply map_ext_in. intros [k w] Hin. unfold extend; simpl.
  unfold in_category at 1.
  destruct (String.eqb_spec (category r) k) as [Hk|_]; [|reflexivity].
  exfalso. apply has_false_In in H. apply H. rewrite Hk.
  unfold JSMap.keys. apply in_map_iff. now exists (k, w).
Qed.

Lemma extend_push_to r data m :
  JSMap.has (category r) m = true -> NoDup (JSMap.keys m) ->
  map (extend data) (push_to (category r) r m) = map (extend (r :: data)) m.
Proof.
  induction m as [|[k w] m IH]; simpl; [discriminate|].
  intros Hh Hnd. inversion Hnd as [|? ? Hk Hm]; subst.
  destruct (String.eqb_spec k (category r)) as [->|Hne]; simpl.
  - unfold extend at 1 3; simpl. unfold in_category at 2.
    rewrite String.eqb_refl, <- app_assoc. simpl. f_equal.
    symmetry. apply extend_absent. now apply has_false_In.
  - unfold extend at 1 3; simpl. unfold in_category at 2.
    destruct (String.eqb_spec (category r) k) as [Hk'|_];
      [symmetry in Hk'; contradiction|].
    f_equal. now apply IH.
Qed.

Lemma organize_fold data : forall m,
  NoDup (JSMap.keys m) ->
  fold_left organize_step data m =
  map (extend data) m ++
  map (bucket data)
      (filter (fun c => negb (JSMap.has c m))
              (first_seen (map (@category string) data))).
Proof.
  induction data as [|r data IH]; intros m Hnd; simpl.
  - rewrite app_nil_r. symmetry. rewrite <- (map_id m) at 2.
    apply map_ext. intros [k w]. unfold extend; simpl.
    now rewrite app_nil_r.
  - rewrite organize_step_push, IH by now apply NoDup_keys_push_to.
    set (L := first_seen (map (@category string) data)).
    assert (Hp : filter (fun c => negb (JSMap.has c
                                 (push_to (category r) r m))) L =
                 filter (fun c => negb (JSMap.has c m))
                   (filter (fun c => negb (String.eqb (category r) c)) L)).
    { rewrite filter_twice. apply filter_ext. intros c.
      rewrite has_push_to.
      destruct (JSMap.has c m), (String.eqb (category r) c); reflexivity. }
    rewrite Hp.
    assert (Hb : forall l,
               map (bucket (r :: data))
                 (filter (fun c => negb (JSMap.has c m))
                   (filter (fun c => negb (String.eqb (category r) c)) l)) =
               map (bucket data)
                 (filter (fun c => negb (JSMap.has c m))
                   (filter (fun c => negb (String.eqb (category r) c)) l))).
    { intros l. apply map_ext_in. intros c Hc.
      apply filter_In in Hc as [Hc _]. apply filter_In in Hc as [_ Hc].
      unfold bucket; simpl. unfold in_category at 1.
      destruct (String.eqb (category r) c); [discriminate|reflexivity]. }
    destruct (JSMap.has (category r) m) eqn:E; simpl.
    + rewrite extend_push_to by assumption. now rewrite Hb.
    + rewrite push_to_absent, map_app, extend_absent, <- app_assoc, Hb
        by assumption.
      simpl. unfold extend at 2, bucket at 2; simpl.
      unfold in_category at 2. now rewrite String.eqb_refl.
Qed.

Lemma organize_NoDup data : forall m,
  NoDup (JSMap.keys m) ->
  NoDup (JSMap.keys (fold_left organize_step data m)).
Proof.
  induction data as [|r data IH]; intros m H; simpl; [exact H|].
  apply IH. rewrite organize_step_push. now apply NoDup_keys_push_to.
Qed.

Lemma push_to_Permutation c r m :
  Permutation (List.concat (JSMap.values (push_to c r m)))
              (r :: List.concat (JSMap.values m)).
Proof.
  induction m as [|[k w] m IH]; simpl; [reflexivity|].
  destruct (String.eqb k c); simpl.
  - rewrite <- app_assoc. simpl. symmetry. apply Permutation_middle.
  - fold (JSMap.values (push_to c r m)). rewrite IH.
    symmetry. apply Permutation_middle.
Qed.

Lemma organize_Permutation data : forall m,
  Permutation (List.concat (JSMap.values (fold_left organize_step data m)))
              (List.concat (JSMap.values m) ++ data).
Proof.
  induction data as [|r data IH]; intros m; simpl.
  - now rewrite app_nil_r.
  - rewrite IH, organize_step_push, push_to_Permutation. simpl.
    apply Permutation_middle.
Qed.
End Organize.

(** C3: [organizeData] returns, for each distinct category in first-seen
    order, the bucket holding exactly the input records whose category is
    that very string, in input order; bucket names are distinct and the
    buckets together hold every input record once. *)
Theorem C3_organize_partitions :
  forall data,
    organizeData data =
      map (bucket data) (first_seen (map (@category string) data)) /\
    NoDup (JSMap.keys (organizeData data)) /\
    Permutation (List.concat (JSMap.values (organizeData data))) data.
Proof.
  intros data. unfold organizeData. split; [|split].
  - rewrite organize_fold by constructor. simpl.
    f_equal. apply filter_all. reflexivity.
  - apply organize_NoDup. constructor.
  - apply (organize_Permutation data JSMap.empty).
Qed.

Example scenario_organized :
  organizeData (cleanData scenario) =
  [("Team", [row "1" "Alice2" "Team"; row "2" "Bob" "Team"])].
Proof. reflexivity. Qed.

Example categories_are_case_sensitive :
  organizeData [row "1" "a" "Team"; row "2" "b" "team"; row "3" "c" "Team"] =
  [("Team", [row "1" "a" "Team"; row "3" "c" "Team"]);
   ("team", [row "2" "b" "team"])].
Proof. reflexivity. Qed.

(** ** [convertToCSV] *)

Lemma append_nil_r (s : string) : String.append s EmptyString = s.
Proof. induction s as [|a s IH]; simpl; [reflexivity|now rewrite IH]. Qed.

Lemma append_assoc (s1 s2 s3 : string) :
  String.append (String.append s1 s2) s3 =
  String.append s1 (String.append s2 s3).
Proof. induction s1 as [|a s1 IH]; simpl; [reflexivity|now rewrite IH]. Qed.

Lemma csv_row_line d : csv_row d = csv_line d.
Proof.
  unfold csv_row, csv_line, quoted, template. simpl.
  rewrite append_nil_r, !append_assoc. reflexivity.
Qed.

Lemma join_concat sep xs : join sep xs = String.concat sep xs.
Proof.
  destruct xs as [|x rest]; [reflexivity|]. unfold join.
  revert x. induction rest as [|y rest IH]; intros x; [reflexivity|].
  simpl fold_left. rewrite IH.
  change (String.concat sep (x :: y :: rest))
    with (String.append x (String.append sep (String.concat sep (y :: rest)))).
  destruct rest as [|z rest].
  - simpl. now rewrite append_assoc.
  - change (String.concat sep (String.append (String.append x sep) y
                                 :: z :: rest))
      with (String.append (String.append (String.append x sep) y)
              (String.append sep (String.concat sep (z :: rest)))).
    change (String.concat sep (y :: z :: rest))
      with (String.append y
              (String.append sep (String.concat sep (z :: rest)))).
    now rewrite !append_assoc.
Qed.

(** C6: the text produced by [convertToCSV] is the header line followed by
    one line per record, in order, separated by line feeds; a line is the
    four fields id, name, category, timestamp, each between double quotes and
    copied as it is, then [processed] as true or false, separated by commas.
    A quote or comma inside a field is not escaped. *)
Theorem C6_convertToCSV_format :
  (forall data,
     convertToCSV data =
     String.concat newline (headers :: map csv_line data)) /\
  headers = "ID,Name,Category,Timestamp,Processed" /\
  convertToCSV [] = "ID,Name,Category,Timestamp,Processed" /\
  csv_line (row "1" (String.append "a" (String.append dquote "b,c")) "Team") =
    template [dquote; "1"; dquote; ","; dquote; "a"; dquote; "b,c"; dquote;
              ","; dquote; "Team"; dquote; ",";
              dquote; "2025-12-03T10:30:00Z"; dquote; ",false"].
Proof.
  split; [|repeat split].
  intros data. unfold convertToCSV. rewrite join_concat.
  do 2 f_equal. apply map_ext. exact csv_row_line.
Qed.

(** ** [parseData] *)

Lemma endsWith_csv_not_json filename :
  endsWith filename ".csv" = true -> endsWith filename ".json" = false.
Proof.
  induction filename as [|a s IH]; [discriminate|].
  cbn [endsWith].
  destruct (String.eqb_spec (String a s) ".csv") as [E|_];
    [injection E as -> ->; reflexivity|].
  intros H. rewrite (IH H).
  destruct (String.eqb_spec (String a s) ".json") as [E|_]; [|reflexivity].
  injection E as _ ->. discriminate H.
Qed.

Lemma parse_item_not_null now item idx :
  item <> JNull -> exists r, parse_item now item idx = Ok r.
Proof.
  intros H. destruct item; [contradiction| | | | |];
    unfold parse_item; simpl; eauto.
Qed.

Lemma map_from_no_null now items : forall idx,
  ~ In JNull items ->
  exists rows, map_from (parse_item now) items idx = Ok rows /\
               List.length rows = List.length items.
Proof.
  induction items as [|item items IH]; intros idx H; simpl.
  - now exists [].
  - destruct (parse_item_not_null now (item := item) idx) as [r Hr].
    { intros ->. apply H. simpl. auto. }
    destruct (IH (S idx)) as [rows [Hrows Hlen]].
    { intros Hin. apply H. simpl. auto. }
    rewrite Hr, Hrows. simpl. exists (r :: rows). simpl. auto.
Qed.

Lemma map_from_null now items : forall idx,
  In JNull items -> map_from (parse_item now) items idx = Throw TypeError.
Proof.
  induction items as [|item items IH]; intros idx H; simpl; [contradiction|].
  destruct item; try reflexivity;
    (destruct H as [H|H]; [discriminate|]);
    unfold parse_item at 1; simpl; now rewrite (IH (S idx) H).
Qed.

(** A syntax error of [JSON.parse] is passed on. *)
Lemma parseData_syntax_error JSON_parse now content filename :
  endsWith filename ".json" = true -> JSON_parse content = None ->
  parseData JSON_parse now content filename = Throw SyntaxError.
Proof. intros Hf Hp. unfold parseData. now rewrite Hf, Hp. Qed.

(** A document without [null] elements gives one record per element. *)
Lemma parseData_no_null JSON_parse now content filename parsed :
  endsWith filename ".json" = true -> JSON_parse content = Some parsed ->
  no_null_item parsed ->
  exists rows, parseData JSON_parse now content filename = Ok rows.
Proof.
  intros Hf Hp Hn. unfold parseData. rewrite Hf, Hp.
  assert (Hone : forall v, v <> JNull ->
            exists rows, map_from (parse_item now) [v] 0 = Ok rows).
  { intros v Hv. destruct (map_from_no_null now [v] 0) as [rows [H _]];
      [simpl; intros [E|[]]; now apply Hv|eauto]. }
  destruct parsed; simpl in Hn; try (apply Hone; discriminate);
    [contradiction|].
  destruct (map_from_no_null now items 0 Hn) as [rows [H _]]. eauto.
Qed.

(** An object element gives a record: each field is the element's own
    value when that is truthy, else the fallback. *)
Lemma parse_item_object now props idx :
  parse_item now (JObject props) idx =
  Ok {| id := js_or (own_property "id" props)
                    (JString (String.append "row_" (string_of_index idx)));
        name := js_or (own_property "name" props) (JString "Unknown");
        category := js_or (own_property "category" props)
                          (JString "Uncategorized");
        timestamp := now idx;
        processed := false |}.
Proof.
  unfold parse_item, template. simpl. now rewrite append_nil_r.
Qed.

Example parseData_fallbacks :
  parseData (fun _ => Some (JObject [("name", JString "Alice")]))
            (fun _ => "2025-12-03T10:30:00Z") "{...}" "one.json" =
  Ok [ {| id := JString "row_0"; name := JString "Alice";
          category := JString "Uncategorized";
          timestamp := "2025-12-03T10:30:00Z"; processed := false |} ].
Proof. reflexivity. Qed.

(** C7: on a [.json] file whose content parses without a syntax error to
    [null], or to an array with a [null] element, [parseData] throws a
    [TypeError]. *)
Theorem C7_null_element_throws :
  forall JSON_parse now content filename parsed,
    endsWith filename ".json" = true ->
    JSON_parse content = Some parsed ->
    has_null_item parsed ->
    parseData JSON_parse now content filename = Throw TypeError.
Proof.
  intros JSON_parse now content filename parsed Hf Hp Hn.
  unfold parseData. rewrite Hf, Hp.
  destruct parsed; simpl in Hn; try contradiction.
  - reflexivity.
  - now apply map_from_null.
Qed.

(** The document [[null]] in a file called data.json. *)
Lemma C7_null_element_throws_witness :
  parseData parse_null_documents (fun _ => "2025-12-03T10:30:00Z")
            "[null]" "data.json" = Throw TypeError.
Proof.
  apply (C7_null_element_throws parse_null_documents
           (fun _ => "2025-12-03T10:30:00Z") "[null]" "data.json"
           (parsed := JArray [JNull])).
  - reflexivity.
  - reflexivity.
  - simpl. auto.
Defined.

(** C8: on a file name ending in [.csv], [parseData] returns the empty
    sequence, whatever the content and whatever [JSON.parse] would do. *)
Theorem C8_csv_yields_nothing :
  forall JSON_parse now content filename,
    endsWith filename ".csv" = true ->
    parseData JSON_parse now content filename = Ok [].
Proof.
  intros JSON_parse now content filename H. unfold parseData.
  now rewrite (endsWith_csv_not_json filename H).
Qed.

(** A delimited-text file with one data line. *)
Lemma C8_csv_yields_nothing_witness :
  parseData parse_null_documents (fun _ => "2025-12-03T10:30:00Z")
            "1,Alice,Team" "people.csv" = Ok [].
Proof.
  apply (C8_csv_yields_nothing parse_null_documents
           (fun _ => "2025-12-03T10:30:00Z") "1,Alice,Team" "people.csv").
  reflexivity.
Defined.

(** * Further properties of the pipeline *)

(** ** [cleanData] *)

Lemma unique_In data r : In r (unique data) -> In r data.
Proof.
  rewrite unique_keyed. unfold JSMap.values. rewrite in_map_iff.
  intros [e [<- He]]. now apply keyed_entry in He.
Qed.

Lemma first_seen_length ks : List.length (first_seen ks) <= List.length ks.
Proof.
  induction ks as [|k ks IH]; simpl; [lia|].
  pose proof (filter_length_le (fun k' => negb (String.eqb k k'))
                (first_seen ks)). lia.
Qed.

Lemma unique_length data : List.length (unique data) <= List.length data.
Proof.
  rewrite <- (length_map (@id string) (unique data)), unique_ids.
  rewrite <- (length_map (@id string) data). apply first_seen_length.
Qed.

(** X1: the records [cleanData] returns have pairwise distinct ids, and
    each has a non-empty id, name and category. *)
Theorem X1_cleanData_output_invariant :
  forall data,
    NoDup (map (@id string) (cleanData data)) /\
    forall r, In r (cleanData data) ->
              id r <> "" /\ name r <> "" /\ category r <> "".
Proof.
  intros data. split; [apply cleanData_NoDup|].
  intros r Hr. unfold cleanData in Hr. apply filter_In in Hr as [_ Hr].
  rewrite required_fields_spec in Hr. now apply all_non_empty_iff.
Qed.

(** X2: [cleanData] only selects: every record it returns is a record of
    the input, and it returns no more records than it was given. *)
Theorem X2_cleanData_selects :
  forall data,
    (forall r, In r (cleanData data) -> In r data) /\
    List.length (cleanData data) <= List.length data.
Proof.
  intros data. split.
  - intros r Hr. unfold cleanData in Hr. apply filter_In in Hr as [Hr _].
    now apply unique_In.
  - unfold cleanData.
    pose proof (filter_length_le required_fields (unique data)).
    pose proof (unique_length data). lia.
Qed.

(** X3: an input whose ids are pairwise distinct and whose records all have
    non-empty id, name and category is returned as it is. *)
Theorem X3_cleanData_keeps_clean_input :
  forall data,
    NoDup (map (@id string) data) ->
    (forall r, In r data -> all_non_empty r = true) ->
    cleanData data = data.
Proof.
  intros data Hnd Hok. unfold cleanData. rewrite unique_distinct by exact Hnd.
  apply filter_all. intros r Hr. rewrite required_fields_spec. now apply Hok.
Qed.

Lemma X3_cleanData_keeps_clean_input_witness :
  cleanData [row "1" "Alice2" "Team"; row "2" "Bob" "Work"] =
  [row "1" "Alice2" "Team"; row "2" "Bob" "Work"].
Proof.
  apply X3_cleanData_keeps_clean_input.
  - repeat constructor; simpl; intuition discriminate.
  - intros r [<-|[<-|[]]]; reflexivity.
Defined.

(** X4: when the last record carrying an id lacks a required field, no
    record with that id is returned, whatever earlier records carried it:
    deduplication runs before validation. *)
Theorem X4_invalid_last_record_hides_id :
  forall data i r,
    last_with_id i data = Some r ->
    all_non_empty r = false ->
    filter (has_id i) (cleanData data) = [].
Proof.
  intros data i r Hlast Hbad. rewrite cleanData_by_id, Hlast.
  now rewrite Hbad.
Qed.

Lemma X4_invalid_last_record_hides_id_witness :
  filter (has_id "1")
         (cleanData [row "1" "Alice" "Team"; row "1" "" "Team"]) = [].
Proof.
  apply (X4_invalid_last_record_hides_id
           [row "1" "Alice" "Team"; row "1" "" "Team"] "1"
           (r := row "1" "" "Team")); reflexivity.
Defined.

(** ** [organizeData] *)

Lemma organizeData_buckets data :
  organizeData data =
  map (bucket data) (first_seen (map (@category string) data)).
Proof.
  unfold organizeData. rewrite organize_fold by constructor. simpl.
  f_equal. apply filter_all. reflexivity.
Qed.

Lemma first_seen_In k ks : In k (first_seen ks) <-> In k ks.
Proof.
  induction ks as [|k0 ks IH]; simpl; [tauto|].
  rewrite filter_In, IH. split.
  - intros [H|[H _]]; auto.
  - intros [H|H]; [auto|].
    destruct (String.eqb_spec k0 k) as [E|E]; [auto|].
    right. split; [exact H|].
    destruct (String.eqb_spec k0 k); [contradiction|reflexivity].
Qed.

Lemma get_buckets data c ks :
  JSMap.get c (map (bucket data) ks) =
  if existsb (fun k => String.eqb k c) ks
  then Some (filter (in_category c) data) else None.
Proof.
  induction ks as [|k ks IH]; simpl; [reflexivity|].
  destruct (String.eqb_spec k c) as [->|_]; [reflexivity|exact IH].
Qed.

Lemma category_listed data c :
  existsb (fun k => String.eqb k c) (first_seen (map (@category string) data))
  = existsb (in_category c) data.
Proof.
  apply eq_true_iff_eq. rewrite !existsb_exists. split.
  - intros [k [Hk E]]. apply first_seen_In, in_map_iff in Hk as [r [<- Hr]].
    now exists r.
  - intros [r [Hr E]]. exists (category r). split; [|exact E].
    apply first_seen_In, in_map. exact Hr.
Qed.

(** X5: looking a category up in the result of [organizeData] gives the
    input records of exactly that category, in input order, when there is
    one, and nothing when no record has it. *)
Theorem X5_organize_lookup :
  forall data c,
    JSMap.get c (organizeData data) =
    if existsb (in_category c) data
    then Some (filter (in_category c) data) else None.
Proof.
  intros data c. now rewrite organizeData_buckets, get_buckets, category_listed.
Qed.

(** X6: [organizeData] makes no empty bucket, and no more buckets than
    there are records. *)
Theorem X6_organize_buckets_inhabited :
  forall data,
    Forall (fun e => snd e <> []) (organizeData data) /\
    List.length (organizeData data) <= List.length data.
Proof.
  intros data. rewrite organizeData_buckets. split.
  - apply Forall_forall. intros e He. apply in_map_iff in He as [c [<- Hc]].
    apply first_seen_In, in_map_iff in Hc as [r [Hr Hin]]. simpl.
    intros Hnil.
    assert (Hf : In r (filter (in_category c) data)).
    { apply filter_In. split; [exact Hin|]. unfold in_category.
      rewrite Hr. apply String.eqb_refl. }
    rewrite Hnil in Hf. contradiction.
  - rewrite length_map. rewrite <- (length_map (@category string) data).
    apply first_seen_length.
Qed.

(** X7: organizing cleaned records gives buckets with non-empty names
    whose records, taken together, still have pairwise distinct ids. *)
Theorem X7_organize_cleaned :
  forall data,
    Forall (fun e => fst e <> "") (organizeData (cleanData data)) /\
    NoDup (map (@id string)
             (List.concat (JSMap.values (organizeData (cleanData data))))).
Proof.
  intros data. split.
  - rewrite organizeData_buckets. apply Forall_forall. intros e He.
    apply in_map_iff in He as [c [<- Hc]].
    apply first_seen_In, in_map_iff in Hc as [r [<- Hin]]. simpl.
    unfold cleanData in Hin. apply filter_In in Hin as [_ Hr].
    rewrite required_fields_spec in Hr. now apply all_non_empty_iff in Hr.
  - apply (Permutation_NoDup (l := map (@id string) (cleanData data)));
      [|apply cleanData_NoDup].
    apply Permutation_map. symmetry.
    apply (organize_Permutation (cleanData data) JSMap.empty).
Qed.

(** ** [convertToCSV] *)

Lemma convertToCSV_snoc data d :
  convertToCSV (data ++ [d]) =
  String.append (convertToCSV data) (String.append newline (csv_line d)).
Proof.
  unfold convertToCSV, join. rewrite map_app, fold_left_app. simpl.
  now rewrite csv_row_line, append_assoc.
Qed.

Lemma line_feeds_append s1 s2 :
  line_feeds (String.append s1 s2) = line_feeds s1 + line_feeds s2.
Proof.
  induction s1 as [|a s1 IH]; simpl; [reflexivity|]. rewrite IH. lia.
Qed.

Lemma line_feeds_csv_line d : single_line d -> line_feeds (csv_line d) = 0.
Proof.
  intros [Hi [Hn [Hc Ht]]]. unfold csv_line, quoted.
  rewrite !line_feeds_append, Hi, Hn, Hc, Ht.
  destruct (processed d); reflexivity.
Qed.

(** X8: adding a record at the end of the list adds one line at the end of
    the text and changes nothing before it. *)
Theorem X8_convertToCSV_appends_line :
  forall data d,
    convertToCSV (data ++ [d]) =
    String.append (convertToCSV data) (String.append newline (csv_line d)).
Proof. exact convertToCSV_snoc. Qed.

(** X9: when no field of any record holds a line feed, the text has one
    line feed per record, that is, the header line and one line for each
    record. *)
Theorem X9_convertToCSV_line_count :
  forall data,
    Forall single_line data ->
    line_feeds (convertToCSV data) = List.length data.
Proof.
  induction data as [|d data IH] using rev_ind; intros H; [reflexivity|].
  apply Forall_app in H as [Hdata Hd]. inversion Hd as [|? ? Hsingle _]; subst.
  rewrite convertToCSV_snoc, !line_feeds_append, IH by exact Hdata.
  rewrite line_feeds_csv_line by exact Hsingle.
  rewrite length_app. simpl. lia.
Qed.

Lemma X9_convertToCSV_line_count_witness :
  line_feeds (convertToCSV scenario) = 3.
Proof.
  apply (@X9_convertToCSV_line_count scenario).
  repeat constructor.
Defined.

(** ** [generateCSVOutput] and [runAutomation] *)

Lemma cleanData_again data : cleanData (cleanData data) = cleanData data.
Proof.
  unfold cleanData at 1. rewrite unique_distinct by apply cleanData_NoDup.
  apply filter_all. intros r Hr. unfold cleanData in Hr.
  now apply filter_In in Hr.
Qed.

(** ** [parseData] *)

Lemma js_or_truthy a b :
  to_boolean b = true -> to_boolean (js_or a b) = true.
Proof.
  intros Hb. unfold js_or. destruct a as [v|]; [|exact Hb].
  destruct (to_boolean v) eqn:E; assumption.
Qed.

Lemma parse_item_filled now item idx r :
  parse_item now item idx = Ok r -> well_filled r.
Proof.
  unfold parse_item.
  destruct item; simpl; try discriminate; intros [= <-]; unfold well_filled;
    simpl; repeat split; try reflexivity; apply js_or_truthy; reflexivity.
Qed.

Lemma map_from_filled now items : forall idx rows,
  map_from (parse_item now) items idx = Ok rows -> Forall well_filled rows.
Proof.
  induction items as [|item items IH]; simpl; intros idx rows.
  - intros [= <-]. constructor.
  - destruct (parse_item now item idx) as [r|e] eqn:Er; [|discriminate].
    simpl. destruct (map_from (parse_item now) items (S idx)) as [rs|e] eqn:Ers;
      [|discriminate].
    simpl. intros [= <-]. constructor.
    + now apply parse_item_filled in Er.
    + now apply (IH (S idx)).
Qed.

(** X13: every record [parseData] returns has a truthy id, name and
    category (a missing, empty, zero, false or null value has been replaced
    by its fallback) and is marked unprocessed. *)
Theorem X13_parsed_records_are_filled :
  forall JSON_parse now content filename rows,
    parseData JSON_parse now content filename = Ok rows ->
    Forall well_filled rows.
Proof.
  intros JSON_parse now content filename rows. unfold parseData.
  destruct (endsWith filename ".json"); [|intros [= <-]; constructor].
  destruct (JSON_parse content) as [parsed|]; [|discriminate].
  apply map_from_filled.
Qed.

Lemma X13_parsed_records_are_filled_witness :
  Forall well_filled
    [ {| id := JNumber PrimFloat.one; name := JString "Unknown";
         category := JString "Uncategorized";
         timestamp := sample_clock 0; processed := false |};
      {| id := JString "row_1"; name := JString "Unknown";
         category := JString "Uncategorized";
         timestamp := sample_clock 1; processed := false |};
      {| id := JString "row_2"; name := JString "Unknown";
         category := JString "Uncategorized";
         timestamp := sample_clock 2; processed := false |} ].
Proof.
  apply (X13_parsed_records_are_filled (fun _ => Some sample_document)
           sample_clock "[...]" "in.json").
  reflexivity.
Defined.

(** X14: a [.json] document that parses and has no [null] element gives
    exactly one record per element, a value that is not an array counting
    as one element. *)
Theorem X14_one_record_per_element :
  forall JSON_parse now content filename parsed,
    endsWith filename ".json" = true ->
    JSON_parse content = Some parsed ->
    no_null_item parsed ->
    exists rows,
      parseData JSON_parse now content filename = Ok rows /\
      List.length rows = element_count parsed.
Proof.
  intros JSON_parse now content filename parsed Hf Hp Hn.
  unfold parseData. rewrite Hf, Hp.
  assert (Hone : forall v, v <> JNull ->
            exists rows, map_from (parse_item now) [v] 0 = Ok rows /\
                         List.length rows = 1).
  { intros v Hv. apply (map_from_no_null now [v] 0).
    simpl. intros [E|[]]. now apply Hv. }
  destruct parsed; simpl in Hn; simpl element_count;
    try (apply Hone; discriminate); [contradiction|].
  now apply map_from_no_null.
Qed.

Lemma X14_one_record_per_element_witness :
  exists rows,
    parseData (fun _ => Some sample_document) sample_clock "[...]" "in.json"
      = Ok rows /\
    List.length rows = 3.
Proof.
  apply (X14_one_record_per_element (fun _ => Some sample_document)
           sample_clock "[...]" "in.json" (parsed := sample_document)).
  - reflexivity.
  - reflexivity.
  - simpl. intros [H|[H|[H|[]]]]; discriminate.
Defined.

Lemma string_of_index_inj j k :
  string_of_index j = string_of_index k -> j = k.
Proof.
  unfold string_of_index. intros H.
  assert (Hu : Nat.to_uint j = Nat.to_uint k).
  { apply (f_equal NilEmpty.uint_of_string) in H.
    rewrite !NilEmpty.usu in H. now injection H. }
  rewrite <- (DecimalNat.Unsigned.of_to j), <- (DecimalNat.Unsigned.of_to k).
  now rewrite Hu.
Qed.

Lemma parse_item_positional_id now item idx r :
  lacks_id item = true -> parse_item now item idx = Ok r ->
  id r = JString (String.append "row_" (string_of_index idx)).
Proof.
  unfold parse_item, template.
  destruct item; simpl; try discriminate; intros Hl [= <-]; simpl;
    rewrite ?append_nil_r; try reflexivity.
  destruct (own_property "id" props) as [v|]; simpl; [|reflexivity].
  apply negb_true_iff in Hl. now rewrite Hl.
Qed.

(** X15: the id given to an element without a usable id depends on its
    position alone: two such elements, in the same document or in different
    ones, get the same id exactly when they sit at the same index. *)
Theorem X15_positional_ids_collide_by_index :
  forall now1 now2 item1 item2 j k r1 r2,
    lacks_id item1 = true -> lacks_id item2 = true ->
    parse_item now1 item1 j = Ok r1 ->
    parse_item now2 item2 k = Ok r2 ->
    (id r1 = id r2 <-> j = k).
Proof.
  intros now1 now2 item1 item2 j k r1 r2 H1 H2 P1 P2.
  rewrite (parse_item_positional_id _ _ _ H1 P1),
          (parse_item_positional_id _ _ _ H2 P2).
  split.
  - intros [= H]. now apply string_of_index_inj.
  - now intros ->.
Qed.

Lemma X15_positional_ids_collide_by_index_witness :
  JString "row_0" = JString "row_0" <-> 0 = 0.
Proof.
  apply (@X15_positional_ids_collide_by_index
           sample_clock (fun _ => "2026-01-01T00:00:00Z")
           (JObject [("name", JString "Alice")]) (JString "loose") 0 0
           {| id := JString "row_0"; name := JString "Alice";
              category := JString "Uncategorized";
              timestamp := sample_clock 0; processed := false |}
           {| id := JString "row_0"; name := JString "Unknown";
              category := JString "Uncategorized";
              timestamp := "2026-01-01T00:00:00Z";
              processed := false |});
    reflexivity.
Defined.

(** ** [readInputFiles] *)

Section Reading.
Variable JSON_parse : string -> option JSValue.
Variable now : string -> nat -> string.

Lemma read_loop_app files1 files2 : forall data,
  read_loop JSON_parse now (files1 ++ files2) data =
  bindR (read_loop JSON_parse now files1 data)
        (fun read => read_loop JSON_parse now files2 read).
Proof.
  induction files1 as [|[file content] files1 IH]; intros data; simpl;
    [reflexivity|].
  destruct (supported file); [|apply IH].
  destruct (parseData JSON_parse (now file) content file); simpl;
    [apply IH|reflexivity].
Qed.

Lemma read_loop_from files : forall data,
  read_loop JSON_parse now files data =
  bindR (read_loop JSON_parse now files [])
        (fun read => Ok (data ++ read)).
Proof.
  induction files as [|[file content] files IH]; intros data; simpl.
  - now rewrite app_nil_r.
  - destruct (supported file); [|apply IH].
    destruct (parseData JSON_parse (now file) content file) as [rows|e];
      simpl; [|reflexivity].
    rewrite (IH (data ++ rows)), (IH rows).
    destruct (read_loop JSON_parse now files []); simpl; [|reflexivity].
    now rewrite app_assoc.
Qed.

Lemma parseData_other_extension (clock : nat -> string) content file :
  endsWith file ".json" = false ->
  parseData JSON_parse clock content file = Ok [].
Proof. intros H. unfold parseData. now rewrite H. Qed.

Lemma read_loop_json_only files : forall data,
  read_loop JSON_parse now files data =
  read_loop JSON_parse now
    (filter (fun f => endsWith (fst f) ".json") files) data.
Proof.
  induction files as [|[file content] files IH]; intros data; simpl;
    [reflexivity|].
  unfold supported. destruct (endsWith file ".json") eqn:Ej; simpl.
  - rewrite orb_true_r. unfold supported. rewrite Ej, orb_true_r.
    destruct (parseData JSON_parse (now file) content file); simpl;
      [apply IH|reflexivity].
  - rewrite orb_false_r.
    destruct (endsWith file ".csv"); [|apply IH].
    rewrite parseData_other_extension by exact Ej. simpl.
    rewrite app_nil_r. apply IH.
Qed.

Lemma read_loop_unsupported files : forall data,
  (forall f, In f files -> supported (fst f) = false) ->
  read_loop JSON_parse now files data = Ok data.
Proof.
  induction files as [|[file content] files IH]; intros data H; simpl;
    [reflexivity|].
  pose proof (H (file, content) (or_introl eq_refl)) as Hs. simpl in Hs.
  rewrite Hs. apply IH. intros f Hf. apply H. simpl. auto.
Qed.
End Reading.

(** X16: only the [.json] files of the directory contribute: reading a
    listing gives the same result, or the same error, as reading its
    [.json] files alone; a [.csv] file or a file of another type adds no
    record. *)
Theorem X16_read_uses_json_files_only :
  forall JSON_parse now files,
    readInputFiles JSON_parse now files =
    readInputFiles JSON_parse now
      (filter (fun f => endsWith (fst f) ".json") files).
Proof.
  intros. unfold readInputFiles. apply read_loop_json_only.
Qed.

(** X17: a [.json] file whose content does not parse makes the whole read
    fail with the syntax error, whatever the earlier files gave and whatever
    follows; an earlier failure is reported instead. *)
Theorem X17_malformed_file_aborts_read :
  forall JSON_parse now before file content after,
    endsWith file ".json" = true ->
    JSON_parse content = None ->
    readInputFiles JSON_parse now (before ++ (file, content) :: after) =
    match readInputFiles JSON_parse now before with
    | Ok _ => Throw SyntaxError
    | Throw e => Throw e
    end.
Proof.
  intros JSON_parse now before file content after Hf Hp.
  unfold readInputFiles. rewrite read_loop_app.
  destruct (read_loop JSON_parse now before []) as [read|e]; simpl;
    [|reflexivity].
  unfold supported. rewrite Hf, orb_true_r.
  now rewrite parseData_syntax_error.
Qed.

Lemma X17_malformed_file_aborts_read_witness :
  readInputFiles parse_null_documents (fun _ => sample_clock)
    ([("old.csv", "a,b")] ++ ("bad.json", "{oops") :: [("z.json", "null")])
  = Throw SyntaxError.
Proof.
  apply (X17_malformed_file_aborts_read parse_null_documents
           (fun _ => sample_clock) [("old.csv", "a,b")] "bad.json" "{oops"
           [("z.json", "null")]); reflexivity.
Defined.

(** X18: the records of a listing are those of its first part followed by
    those of the rest, and the read fails where the first of the two parts
    to fail does. *)
Theorem X18_read_concatenates_in_listing_order :
  forall JSON_parse now files1 files2,
    readInputFiles JSON_parse now (files1 ++ files2) =
    bindR (readInputFiles JSON_parse now files1) (fun first =>
    bindR (readInputFiles JSON_parse now files2) (fun second =>
    Ok (first ++ second))).
Proof.
  intros. unfold readInputFiles. rewrite read_loop_app.
  destruct (read_loop JSON_parse now files1 []) as [first|e]; simpl;
    [|reflexivity].
  apply read_loop_from.
Qed.

(** ** [archiveProcessedFiles] *)

Lemma get_none_remove file (files : Files) :
  JSMap.get file files = None -> remove_file file files = files.
Proof.
  unfold remove_file. induction files as [|[f c] files IH]; simpl;
    [reflexivity|].
  destruct (String.eqb f file); [discriminate|]. simpl.
  intros H. now rewrite IH.
Qed.

Lemma get_remove file g (files : Files) :
  JSMap.get g (remove_file file files) =
  if String.eqb file g then None else JSMap.get g files.
Proof.
  unfold remove_file. induction files as [|[f c] files IH]; simpl.
  - destruct (String.eqb file g); reflexivity.
  - destruct (String.eqb_spec f file) as [->|Hf]; simpl.
    + rewrite IH. destruct (String.eqb file g); reflexivity.
    + rewrite IH. destruct (String.eqb_spec f g) as [->|Hg]; [|reflexivity].
      destruct (String.eqb_spec file g) as [->|_]; [contradiction|reflexivity].
Qed.

Lemma listing_archive_step d file :
  listing (archive_step d file) =
  filter (fun e => negb (supported file && String.eqb (fst e) file))
         (listing d).
Proof.
  unfold archive_step. destruct (supported file); simpl.
  - unfold renameSync. destruct (JSMap.get file (listing d)) eqn:E; simpl.
    + reflexivity.
    + symmetry. now apply get_none_remove.
  - symmetry. apply filter_all. reflexivity.
Qed.

Lemma listing_archive_fold names : forall d,
  listing (fold_left archive_step names d) =
  filter (fun e => negb (existsb (fun file => supported file &&
                                              String.eqb (fst e) file) names))
         (listing d).
Proof.
  induction names as [|file names IH]; intros d; simpl.
  - symmetry. apply filter_all. reflexivity.
  - rewrite IH, listing_archive_step, filter_twice. apply filter_ext.
    intros e. now rewrite negb_orb.
Qed.

Lemma archive_files_step d file g :
  JSMap.get g (archive_files (archive_step d file)) =
  if supported file && String.eqb file g
  then match JSMap.get file (listing d) with
       | Some content => Some content
       | None => JSMap.get g (archive_files d)
       end
  else JSMap.get g (archive_files d).
Proof.
  unfold archive_step. destruct (supported file); simpl; [|reflexivity].
  unfold renameSync. destruct (JSMap.get file (listing d)) eqn:E.
  - unfold archive_files at 1. simpl. rewrite get_set.
    destruct (String.eqb file g); reflexivity.
  - destruct (String.eqb file g); reflexivity.
Qed.

Lemma get_archive_step d file g :
  JSMap.get g (listing (archive_step d file)) =
  if supported file && String.eqb file g then None
  else JSMap.get g (listing d).
Proof.
  unfold archive_step. destruct (supported file); simpl; [|reflexivity].
  unfold renameSync. destruct (JSMap.get file (listing d)) eqn:E; simpl.
  - apply get_remove.
  - destruct (String.eqb_spec file g) as [<-|_]; [exact E|reflexivity].
Qed.

Lemma archive_files_fold g names : forall d,
  JSMap.get g (archive_files (fold_left archive_step names d)) =
  if supported g && existsb (fun file => String.eqb file g) names
  then match JSMap.get g (listing d) with
       | Some content => Some content
       | None => JSMap.get g (archive_files d)
       end
  else JSMap.get g (archive_files d).
Proof.
  induction names as [|file names IH]; intros d; simpl.
  - now rewrite andb_false_r.
  - rewrite IH, archive_files_step, get_archive_step.
    destruct (String.eqb_spec file g) as [->|Hne]; simpl.
    + rewrite andb_true_r. destruct (supported g); simpl; [|reflexivity].
      destruct (JSMap.get g (listing d));
        destruct (existsb (fun file => String.eqb file g) names); reflexivity.
    + rewrite !andb_false_r. reflexivity.
Qed.

Lemma get_listed g (files : Files) :
  existsb (fun file => String.eqb file g) (JSMap.keys files) = false ->
  JSMap.get g files = None.
Proof.
  induction files as [|[f c] files IH]; simpl; [reflexivity|].
  destruct (String.eqb f g); [discriminate|exact IH].
Qed.

Lemma archiveDir_step d file :
  archiveDir d <> None -> archiveDir (archive_step d file) <> None.
Proof.
  unfold archive_step, renameSync. destruct (supported file); [|auto].
  destruct (JSMap.get file (listing d)); simpl; [discriminate|auto].
Qed.

Lemma archiveDir_fold names : forall d,
  archiveDir d <> None -> archiveDir (fold_left archive_step names d) <> None.
Proof.
  induction names as [|file names IH]; intros d H; simpl; [exact H|].
  apply IH. now apply archiveDir_step.
Qed.

Lemma archive_fold_unsupported names : forall d,
  (forall file, In file names -> supported file = false) ->
  fold_left archive_step names d = d.
Proof.
  induction names as [|file names IH]; intros d H; simpl; [reflexivity|].
  unfold archive_step at 2. rewrite (H file) by (simpl; auto).
  apply IH. intros f Hf. apply H. simpl. auto.
Qed.

Lemma archived_listing d :
  listing (archiveProcessedFilesOn d) =
  filter (fun e => negb (supported (fst e))) (listing d).
Proof.
  unfold archiveProcessedFilesOn. rewrite listing_archive_fold.
  assert (Hl : listing (ensure_archive d) = listing d).
  { unfold ensure_archive. destruct (archiveDir d); reflexivity. }
  rewrite Hl. apply filter_ext_in. intros e He. f_equal.
  destruct (supported (fst e)) eqn:Es.
  - apply existsb_exists. exists (fst e). split.
    + unfold JSMap.keys. now apply in_map.
    + now rewrite Es, String.eqb_refl.
  - destruct (existsb _ _) eqn:Ex; [|reflexivity].
    apply existsb_exists in Ex as [file [_ Hfile]].
    apply andb_true_iff in Hfile as [Hs Heq].
    apply String.eqb_eq in Heq. rewrite Heq, Hs in Es. discriminate.
Qed.

(** X19: after archiving, the input directory holds exactly its former
    files of other types, in their order; no [.csv] or [.json] file is
    left. *)
Theorem X19_archive_empties_supported_files :
  forall d,
    listing (archiveProcessedFilesOn d) =
      filter (fun e => negb (supported (fst e))) (listing d) /\
    Forall (fun e => supported (fst e) = false)
           (listing (archiveProcessedFilesOn d)).
Proof.
  intros d. rewrite archived_listing. split; [reflexivity|].
  apply Forall_forall. intros e He. apply filter_In in He as [_ He].
  now apply negb_true_iff.
Qed.

(** X20: after archiving, the archive holds under each name: the content of
    the input file of that name if it was a [.csv] or [.json] file (an
    archived file of the same name is replaced), and otherwise what the
    archive held before. *)
Theorem X20_archive_holds_moved_files :
  forall d file,
    JSMap.get file (archive_files (archiveProcessedFilesOn d)) =
    if supported file
    then match JSMap.get file (listing d) with
         | Some content => Some content
         | None => JSMap.get file (archive_files d)
         end
    else JSMap.get file (archive_files d).
Proof.
  intros d file. unfold archiveProcessedFilesOn. rewrite archive_files_fold.
  assert (Hl : listing (ensure_archive d) = listing d).
  { unfold ensure_archive. destruct (archiveDir d); reflexivity. }
  assert (Ha : archive_files (ensure_archive d) = archive_files d).
  { destruct d as [files [archive|]]; reflexivity. }
  rewrite Hl, Ha. destruct (supported file); simpl; [|reflexivity].
  destruct (existsb _ _) eqn:Ex; [reflexivity|].
  now rewrite (get_listed _ _ Ex).
Qed.

(** X21: archiving twice is archiving once. *)
Theorem X21_archive_idempotent :
  forall d,
    archiveProcessedFilesOn (archiveProcessedFilesOn d) =
    archiveProcessedFilesOn d.
Proof.
  intros d. set (d1 := archiveProcessedFilesOn d).
  unfold archiveProcessedFilesOn at 1.
  assert (He : ensure_archive d1 = d1).
  { assert (Hs : archiveDir d1 <> None).
    { apply archiveDir_fold. destruct d as [files [archive|]]; discriminate. }
    unfold ensure_archive. destruct (archiveDir d1); [reflexivity|].
    now contradiction Hs. }
  rewrite He. apply archive_fold_unsupported.
  intros file Hin. unfold JSMap.keys in Hin.
  apply in_map_iff in Hin as [e [<- He']].
  unfold d1 in He'. rewrite archived_listing in He'.
  apply filter_In in He' as [_ He']. now apply negb_true_iff.
Qed.

(** X22: once the input directory has been archived, reading it gives no
    record and no error, whatever the files were. *)
Theorem X22_nothing_to_read_after_archive :
  forall JSON_parse now d,
    readInputFiles JSON_parse now (listing (archiveProcessedFilesOn d)) =
    Ok [].
Proof.
  intros JSON_parse now d. unfold readInputFiles.
  apply read_loop_unsupported. intros f Hf.
  rewrite archived_listing in Hf. apply filter_In in Hf as [_ Hf].
  now apply negb_true_iff.
Qed.

Example archive_sample_dir :
  archiveProcessedFilesOn sample_dir =
  {| listing := [("notes.txt", "n")];
     archiveDir := Some [("people.json", "[1]"); ("old.csv", "a,b")] |}.
Proof. reflexivity. Qed.

(** * The run *)

(** ** Keys and buckets at run time *)

Arguments records_in : simpl never.

Lemma same_key_refl position v :
  same_key (key_of position v) (key_of position v) = true.
Proof.
  destruct v; simpl.
  - reflexivity.
  - apply eqb_reflx.
  - unfold same_number, PrimFloat.is_nan.
    destruct (PrimFloat.eqb x x); reflexivity.
  - apply String.eqb_refl.
  - apply Nat.eqb_refl.
  - apply Nat.eqb_refl.
Qed.

Lemma records_in_cons {K R : Type} (k : K) (rows : list R)
  (m : list (K * list R)) :
  records_in ((k, rows) :: m) = List.length rows + records_in m.
Proof. unfold records_in. simpl. now rewrite length_app. Qed.

Lemma records_in_app {K R : Type} (m1 m2 : list (K * list R)) :
  records_in (m1 ++ m2) = records_in m1 + records_in m2.
Proof.
  unfold records_in. now rewrite map_app, concat_app, length_app.
Qed.

Section KeyMapFacts.
Variable R : Type.
Implicit Types (m : KeyMap.t (list R)) (k : Key) (r : R).

Lemma key_has_get k m :
  KeyMap.has k m = true -> exists rows, KeyMap.get k m = Some rows.
Proof.
  induction m as [|[k' w] m IH]; simpl; [discriminate|].
  destruct (same_key k' k); eauto.
Qed.

Lemma key_set_absent k (v : list R) m :
  KeyMap.has k m = false -> KeyMap.set k v m = m ++ [(k, v)].
Proof.
  induction m as [|[k' w] m IH]; simpl; [reflexivity|].
  destruct (same_key k' k); [discriminate|].
  intros H. now rewrite IH.
Qed.

Lemma key_get_appended k (v : list R) m :
  KeyMap.has k m = false -> same_key k k = true ->
  KeyMap.get k (m ++ [(k, v)]) = Some v.
Proof.
  intros Hm Hk. induction m as [|[k' w] m IH]; simpl in *.
  - now rewrite Hk.
  - destruct (same_key k' k); [discriminate|auto].
Qed.

Lemma key_set_push k r m : forall rows,
  KeyMap.get k m = Some rows ->
  records_in (KeyMap.set k (rows ++ [r]) m) = S (records_in m).
Proof.
  induction m as [|[k' w] m IH]; simpl; intros rows; [discriminate|].
  destruct (same_key k' k).
  - intros [= ->]. rewrite !records_in_cons, length_app. simpl. lia.
  - intros H. rewrite !records_in_cons, (IH rows H). lia.
Qed.
End KeyMapFacts.

Lemma organize_stepJS_size organized position row :
  records_in (organize_stepJS organized position row) =
  S (records_in organized).
Proof.
  unfold organize_stepJS.
  set (k := key_of position (category row)).
  destruct (KeyMap.has k organized) eqn:E; simpl.
  - destruct (key_has_get _ _ E) as [rows Hg]. rewrite Hg.
    now apply key_set_push.
  - rewrite key_set_absent by exact E.
    rewrite key_get_appended by (exact E || apply same_key_refl).
    rewrite (key_set_push _ _ _ (key_get_appended _ [] _ E
                                   (same_key_refl position (category row)))).
    rewrite records_in_app. unfold records_in at 2. simpl. lia.
Qed.

Lemma organize_loopJS_size data : forall position organized,
  records_in (organize_loopJS data position organized) =
  records_in organized + List.length data.
Proof.
  induction data as [|row data IH]; intros position organized; simpl;
    [lia|].
  rewrite IH, organize_stepJS_size. lia.
Qed.

(** Organizing loses and adds no record, whatever the values are. *)
Lemma organizeDataJS_size data :
  records_in (organizeDataJS data) = List.length data.
Proof. unfold organizeDataJS. now rewrite organize_loopJS_size. Qed.

(** ** The loop of [generateCSVOutput] *)

Section Emit.
Variables K R : Type.
Variable host : Host.
Variable lower : K -> Outcome string.
Variable toCSV : list R -> Outcome string.

Lemma emit_count organized : forall turn s,
  processedCount (snd (emit host lower toCSV organized turn s)) =
  processedCount s +
  records_in (written_buckets host lower toCSV organized turn).
Proof.
  induction organized as [|[c rows] rest IH]; intros turn s; simpl.
  - unfold records_in. simpl. lia.
  - destruct (toCSV rows) as [text|f]; simpl;
      [|unfold records_in; simpl; lia].
    destruct (lower c) as [lowered|f]; simpl;
      [|unfold records_in; simpl; lia].
    destruct (write_succeeds host (csv_path host lowered turn)); simpl;
      [|unfold records_in; simpl; lia].
    rewrite IH, records_in_cons. simpl. lia.
Qed.

Lemma written_buckets_le organized : forall turn,
  records_in (written_buckets host lower toCSV organized turn) <=
  records_in organized.
Proof.
  induction organized as [|[c rows] rest IH]; intros turn; simpl; [lia|].
  rewrite records_in_cons.
  destruct (toCSV rows); [|unfold records_in; simpl; lia].
  destruct (lower c) as [lowered|f]; [|unfold records_in; simpl; lia].
  destruct (write_succeeds host (csv_path host lowered turn));
    [|unfold records_in; simpl; lia].
  rewrite records_in_cons. specialize (IH (S turn)). lia.
Qed.

Lemma emit_done organized : forall turn s,
  fst (emit host lower toCSV organized turn s) = Done tt <->
  can_emit host lower toCSV organized turn = true.
Proof.
  induction organized as [|[c rows] rest IH]; intros turn s; simpl.
  - tauto.
  - destruct (toCSV rows) as [text|f]; simpl;
      [|split; discriminate].
    destruct (lower c) as [lowered|f]; simpl; [|split; discriminate].
    destruct (write_succeeds host (csv_path host lowered turn)); simpl.
    + apply IH.
    + split; discriminate.
Qed.

Lemma can_emit_all organized : forall turn,
  can_emit host lower toCSV organized turn = true ->
  written_buckets host lower toCSV organized turn = organized.
Proof.
  induction organized as [|[c rows] rest IH]; intros turn; simpl;
    [reflexivity|].
  destruct (toCSV rows); [|discriminate].
  destruct (lower c) as [lowered|f]; [|discriminate].
  destruct (write_succeeds host (csv_path host lowered turn)); simpl;
    [|discriminate].
  intros H. now rewrite IH.
Qed.

Lemma emit_outcome organized turn s :
  fst (emit host lower toCSV organized turn s) = Done tt \/
  exists f, fst (emit host lower toCSV organized turn s) = Failed f.
Proof.
  destruct (fst (emit host lower toCSV organized turn s)) as [[]|f]; eauto.
Qed.
End Emit.

(** ** String-typed records inside a run *)

Section Typed.
Local Abbreviation lifted :=
  (fun e : string * DataRow => (KValue (JString (fst e)), untyped (snd e))).

Lemma keyedJS_untyped data : forall position,
  keyedJS (map untyped data) position = map lifted (keyed data).
Proof.
  induction data as [|d data IH]; intros position; simpl; [reflexivity|].
  now rewrite IH.
Qed.

Lemma set_lifted k v (m : JSMap.t DataRow) :
  KeyMap.set (KValue (JString k)) (untyped v) (map lifted m) =
  map lifted (JSMap.set k v m).
Proof.
  induction m as [|[k' v'] m IH]; simpl; [reflexivity|].
  destruct (String.eqb k' k); simpl; [reflexivity|]. now rewrite IH.
Qed.

Lemma fold_lifted (es : list (string * DataRow)) : forall m,
  fold_left (@KeyMap.put (Row JSValue)) (map lifted es) (map lifted m) =
  map lifted (fold_left (@JSMap.put DataRow) es m).
Proof.
  induction es as [|[k v] es IH]; intros m; simpl; [reflexivity|].
  unfold KeyMap.put at 2, JSMap.put at 2. simpl.
  rewrite set_lifted. apply IH.
Qed.

Lemma uniqueJS_untyped data :
  uniqueJS (map untyped data) = map untyped (unique data).
Proof.
  unfold uniqueJS, unique, KeyMap.of_entries, JSMap.of_entries.
  rewrite keyedJS_untyped.
  change (@nil (Key * Row JSValue)) with (map lifted []).
  rewrite fold_lifted. unfold KeyMap.values, JSMap.values.
  now rewrite !map_map.
Qed.

Lemma required_untyped d : required_fieldsJS (untyped d) = required_fields d.
Proof.
  unfold required_fieldsJS, required_fields, and_value, js_and. simpl.
  destruct (truthy (id d)) eqn:Ei; simpl; rewrite ?Ei; simpl;
    [|now rewrite Ei].
  destruct (truthy (name d)) eqn:En; simpl; rewrite ?En; reflexivity.
Qed.

(** On string-typed records the run cleans as [cleanData] does. *)
Lemma cleanDataJS_untyped data :
  cleanDataJS (map untyped data) = map untyped (cleanData data).
Proof.
  unfold cleanDataJS, cleanData. rewrite uniqueJS_untyped, filter_map_comm.
  f_equal. apply filter_ext. exact required_untyped.
Qed.
End Typed.

(** A run on files whose records are all string-typed is [runAutomation] on
    those records. *)
Lemma runAutomationOn_typed host JSON_parse now files data s :
  readInputFiles JSON_parse now files = Ok (map untyped data) ->
  runAutomationOn host JSON_parse now files s = runAutomation host data s.
Proof. intros H. unfold runAutomationOn, runAutomation. now rewrite H. Qed.

(** ** The running total *)

Lemma runAutomationOn_count host JSON_parse now files s :
  processedCount (snd (runAutomationOn host JSON_parse now files s)) =
  processedCount s + emitted_in_run host JSON_parse now files.
Proof.
  unfold runAutomationOn, emitted_in_run, buckets_of_run.
  destruct (readInputFiles JSON_parse now files) as [data|e]; simpl.
  - pose proof (emit_count host (lowerJS host) (convertToCSVJS host)
                  (organizeDataJS (cleanDataJS data)) 0 s) as Hc.
    unfold generateCSVOutputJS.
    destruct (emit host (lowerJS host) (convertToCSVJS host)
                (organizeDataJS (cleanDataJS data)) 0 s) as [[u|f] s'];
      exact Hc.
  - unfold records_in. simpl. lia.
Qed.

Lemma runAutomationOn_done host JSON_parse now files s report s' :
  runAutomationOn host JSON_parse now files s = (Done report, s') ->
  report = generateReport s' /\
  can_emit host (lowerJS host) (convertToCSVJS host)
           (buckets_of_run JSON_parse now files) 0 = true.
Proof.
  unfold runAutomationOn, buckets_of_run.
  destruct (readInputFiles JSON_parse now files) as [data|e];
    [|discriminate].
  unfold generateCSVOutputJS.
  pose proof (emit_done host (lowerJS host) (convertToCSVJS host)
                (organizeDataJS (cleanDataJS data)) 0 s) as Hd.
  destruct (emit host (lowerJS host) (convertToCSVJS host)
              (organizeDataJS (cleanDataJS data)) 0 s) as [[[]|f] s0];
    [|discriminate].
  intros [= <- <-]. split; [reflexivity|]. now apply Hd.
Qed.

Lemma runAutomationOn_succeeds host JSON_parse now files s data :
  readInputFiles JSON_parse now files = Ok data ->
  can_emit host (lowerJS host) (convertToCSVJS host)
           (organizeDataJS (cleanDataJS data)) 0 = true ->
  exists report s',
    runAutomationOn host JSON_parse now files s = (Done report, s').
Proof.
  intros Hr Hc. unfold runAutomationOn. rewrite Hr.
  unfold generateCSVOutputJS.
  apply (emit_done host (lowerJS host) (convertToCSVJS host)
           (organizeDataJS (cleanDataJS data)) 0 s) in Hc.
  destruct (emit host (lowerJS host) (convertToCSVJS host)
              (organizeDataJS (cleanDataJS data)) 0 s) as [[u|f] s0];
    [eauto|discriminate].
Qed.

(** In a run that reaches its report, the records emitted are all the
    cleaned records. *)
Lemma emitted_in_done_run host JSON_parse now files s report s' data :
  runAutomationOn host JSON_parse now files s = (Done report, s') ->
  readInputFiles JSON_parse now files = Ok data ->
  emitted_in_run host JSON_parse now files = List.length (cleanDataJS data).
Proof.
  intros Hrun Hread. apply runAutomationOn_done in Hrun as [_ Hc].
  unfold emitted_in_run. rewrite (can_emit_all _ _ _ _ _ Hc).
  unfold buckets_of_run. rewrite Hread. apply organizeDataJS_size.
Qed.

(** C5: take a run entered with a running total of zero whose read step
    gives the records [data].  If the run reaches its report, the total
    that [generateCSVOutput] added up over the buckets, which the report
    shows as [totalRecordsProcessed], is the number of cleaned records; and
    the run does reach its report when every bucket can be written. *)
Theorem C5_total_is_cleaned_count :
  forall host JSON_parse now files s data,
    processedCount s = 0 ->
    readInputFiles JSON_parse now files = Ok data ->
    (forall report s',
       runAutomationOn host JSON_parse now files s = (Done report, s') ->
       totalRecordsProcessed report = List.length (cleanDataJS data) /\
       processedCount s' = List.length (cleanDataJS data)) /\
    (can_emit host (lowerJS host) (convertToCSVJS host)
              (organizeDataJS (cleanDataJS data)) 0 = true ->
     exists report s',
       runAutomationOn host JSON_parse now files s = (Done report, s')).
Proof.
  intros host JSON_parse now files s data H0 Hread. split.
  - intros report s' Hrun.
    pose proof (runAutomationOn_count host JSON_parse now files s) as Hc.
    rewrite Hrun, H0, (emitted_in_done_run _ _ _ _ _ Hrun Hread) in Hc.
    simpl in Hc. apply runAutomationOn_done in Hrun as [-> _].
    simpl. auto.
  - now apply runAutomationOn_succeeds.
Qed.

(** The scenario, read from one file by the fresh bot on the stand-in
    host: the run reaches its report, which shows two records. *)
Lemma C5_total_is_cleaned_count_witness :
  exists report s',
    runAutomationOn flat_host parse_samples still_clock
      [("team.json", "scenario")] automationBot = (Done report, s') /\
    totalRecordsProcessed report = 2.
Proof.
  destruct (C5_total_is_cleaned_count flat_host parse_samples still_clock
              [("team.json", "scenario")] automationBot eq_refl eq_refl)
    as [Htotal Hdone].
  destruct (Hdone eq_refl) as [report [s' Hrun]].
  exists report, s'. split; [exact Hrun|].
  exact (proj1 (Htotal report s' Hrun)).
Defined.

Example slash_in_category_stops_run :
  let run := runAutomationOn flat_host parse_samples still_clock
               [("in.json", "slash")] automationBot in
  fst run = Failed (WriteFailed "./data/output/n/a_1700.csv") /\
  processedCount (snd run) = 1 /\
  List.length (written (snd run)) = 1.
Proof. repeat split. Qed.

Example numeric_category_stops_run :
  let run := runAutomationOn flat_host parse_samples still_clock
               [("in.json", "numeric")] automationBot in
  fst run = Failed (Thrown TypeError) /\ processedCount (snd run) = 1.
Proof. repeat split. Qed.

Example report_after_failed_run :
  let first := runAutomationOn flat_host parse_samples still_clock
                 [("in.json", "slash")] automationBot in
  let second := runAutomationOn flat_host parse_samples still_clock
                  [("team.json", "scenario")] (snd first) in
  fst second =
  Done {| totalRecordsProcessed := 3; outputDirectory := "./data/output";
          status := "SUCCESS" |}.
Proof. reflexivity. Qed.

(** C10: [processedCount] is 0 in the freshly constructed bot.  Emitting
    adds to it the records of the buckets it gets written, and a run adds
    the records it emits and changes it in no other way, whether the run
    reaches its report or stops at a throw.  So when a second run on the
    same bot reaches its report, the total shown is the records emitted in
    both runs together; in a run that reaches its report these are all its
    cleaned records. *)
Theorem C10_count_accumulates_across_runs :
  processedCount automationBot = 0 /\
  (forall host organized s,
     processedCount (snd (generateCSVOutputJS host organized s)) =
     processedCount s +
     records_in (written_buckets host (lowerJS host) (convertToCSVJS host)
                   organized 0)) /\
  (forall host JSON_parse now files s,
     processedCount (snd (runAutomationOn host JSON_parse now files s)) =
     processedCount s + emitted_in_run host JSON_parse now files) /\
  (forall host1 parse1 now1 files1 host2 parse2 now2 files2 report s2,
     runAutomationOn host2 parse2 now2 files2
       (snd (runAutomationOn host1 parse1 now1 files1 automationBot)) =
       (Done report, s2) ->
     totalRecordsProcessed report =
     emitted_in_run host1 parse1 now1 files1 +
     emitted_in_run host2 parse2 now2 files2) /\
  (forall host JSON_parse now files s report s' data,
     runAutomationOn host JSON_parse now files s = (Done report, s') ->
     readInputFiles JSON_parse now files = Ok data ->
     emitted_in_run host JSON_parse now files =
     List.length (cleanDataJS data)).
Proof.
  split; [reflexivity|]. split; [|split; [|split]].
  - intros host organized s. apply emit_count.
  - intros. apply runAutomationOn_count.
  - intros host1 parse1 now1 files1 host2 parse2 now2 files2 report s2 Hrun.
    pose proof (runAutomationOn_count host2 parse2 now2 files2
                  (snd (runAutomationOn host1 parse1 now1 files1
                          automationBot))) as H2.
    rewrite Hrun, runAutomationOn_count in H2. simpl in H2.
    apply runAutomationOn_done in Hrun as [-> _]. simpl. exact H2.
  - intros. eapply emitted_in_done_run; eassumption.
Qed.

(** ** [generateCSVOutput] and [runAutomation] on string-typed records *)



Lemma runAutomation_cleaned host data s :
  runAutomation host data s =
  match generateCSVOutputJS host
          (organizeDataJS (map untyped (cleanData data))) s with
  | (Failed f, s') => (Failed f, s')
  | (Done _, s') => (Done (generateReport s'), s')
  end.
Proof. unfold runAutomation. now rewrite cleanDataJS_untyped. Qed.

(** X11: a run on raw records and a run on the same records already
    cleaned give the same outcome, the same report and leave the same
    state. *)
Theorem X11_run_on_cleaned_input :
  forall host data s,
    runAutomation host (cleanData data) s = runAutomation host data s.
Proof.
  intros host data s. now rewrite !runAutomation_cleaned, cleanData_again.
Qed.

(** X12: when no record survives cleaning, a run writes no document and
    leaves the running total as it was, and still reports SUCCESS with that
    total. *)
Theorem X12_run_without_valid_records :
  forall host data s,
    cleanData data = [] ->
    runAutomation host data s =
    (Done {| totalRecordsProcessed := processedCount s;
             outputDirectory := "./data/output";
             status := "SUCCESS" |}, s).
Proof.
  intros host data s H. now rewrite runAutomation_cleaned, H.
Qed.

Lemma X12_run_without_valid_records_witness :
  runAutomation flat_host [row "7" "Zed" ""; row "" "Yan" "Work"]
                automationBot =
  (Done {| totalRecordsProcessed := 0;
           outputDirectory := "./data/output";
           status := "SUCCESS" |}, automationBot).
Proof.
  apply (X12_run_without_valid_records flat_host
           [row "7" "Zed" ""; row "" "Yan" "Work"] automationBot).
  reflexivity.
Defined.

(** The total of a run on string-typed records is the number of records
    [cleanData] returns for them. *)
Lemma runAutomation_total host data s report s' :
  runAutomation host data s = (Done report, s') ->
  totalRecordsProcessed report =
  processedCount s + List.length (cleanData data).
Proof.
  rewrite runAutomation_cleaned. unfold generateCSVOutputJS.
  pose proof (emit_count host (lowerJS host) (convertToCSVJS host)
                (organizeDataJS (map untyped (cleanData data))) 0 s) as Hc.
  pose proof (emit_done host (lowerJS host) (convertToCSVJS host)
                (organizeDataJS (map untyped (cleanData data))) 0 s) as Hd.
  destruct (emit host (lowerJS host) (convertToCSVJS host)
              (organizeDataJS (map untyped (cleanData data))) 0 s)
    as [[[]|f] s0]; [|discriminate].
  intros [= <- <-]. simpl in *.
  rewrite (can_emit_all _ _ _ _ _ (proj1 Hd eq_refl)) in Hc.
  now rewrite organizeDataJS_size, length_map in Hc.
Qed.

Example scenario_report :
  fst (runAutomation flat_host scenario automationBot) =
  Done {| totalRecordsProcessed := 2; outputDirectory := "./data/output";
          status := "SUCCESS" |}.
Proof. reflexivity. Qed.
